(** * Terrain Mapper: region elevation behaviors

    A shallow embedding of the segment rewriting in
    [src/scripts/regions/Region.js] (plateau, stairs and ramp behaviors of
    [terrainmapper.setElevation]), of the ramp evaluation and the vertical
    intersection in [src/scripts/regions/RegionElevationHandler.js], and of
    the min/max axis points shared by both files.

    JavaScript numbers are rationals [Q]; where NaN and the infinities
    matter (the ramp evaluation) they are the type [jsnum] below.  Segment
    arrays are lists; the [for] loops that splice into the array they scan
    are written as a scan over a zipper: the segments already visited (in
    reverse, as mutated by the loop) and those still to visit. *)

From Stdlib Require Import QArith Qround Qminmax Qabs ZArith List String Bool Lia Lqa.
Import ListNotations.

Open Scope Q_scope.

(** ** Waypoints and segments *)

Record Waypoint := {
  x : Q;
  y : Q;
  elevation : Q
}.

(** [Region.MOVEMENT_SEGMENT_TYPES] *)
Inductive SegmentType := ENTER | MOVE | EXIT.

Record Segment := {
  type : SegmentType;
  from : Waypoint;
  to : Waypoint
}.

(** [{ ...waypoint, elevation: e }] and the assignment [waypoint.elevation = e]. *)
Definition withElevation (w : Waypoint) (e : Q) : Waypoint :=
  {| x := w.(x); y := w.(y); elevation := e |}.

(** [segment.from.elevation = ef; segment.to.elevation = et] *)
Definition setSegmentElevations (s : Segment) (ef et : Q) : Segment :=
  {| type := s.(type); from := withElevation s.(from) ef; to := withElevation s.(to) et |}.

(** [Math.round]: rounds half-way cases up. *)
Definition jsround (q : Q) : Q := inject_Z (Qfloor (q + (1#2))).

Definition Qlt_bool (a b : Q) : bool := negb (Qle_bool b a).

(** Foundry's [Number#almostEqual] with its default epsilon 1e-8. *)
Definition almostEqualEpsilon : Q := 1 # 100000000.
Definition almostEqual (a b : Q) : bool := Qle_bool (Qabs (a - b)) almostEqualEpsilon.

(** Modelled from the spec: [regionWaypointsXYEqual] of [util.js] (not in
    the sources), "a and b share the same (x,y)". *)
Definition regionWaypointsXYEqual (a b : Waypoint) : bool :=
  Qeq_bool a.(x) b.(x) && Qeq_bool a.(y) b.(y).

(** Modelled from the spec: [regionWaypointsEqual] of [util.js] (not in the
    sources), an intersection "that degenerates to an existing endpoint":
    same position and elevation. *)
Definition regionWaypointsEqual (a b : Waypoint) : bool :=
  regionWaypointsXYEqual a b && Qeq_bool a.(elevation) b.(elevation).

(** [constructVerticalMoveSegment(waypoint, targetElevation)] *)
Definition constructVerticalMoveSegment (waypoint : Waypoint) (targetElevation : Q) : Segment :=
  {| type := MOVE;
     from := {| x := waypoint.(x); y := waypoint.(y); elevation := waypoint.(elevation) |};
     to := {| x := waypoint.(x); y := waypoint.(y); elevation := targetElevation |} |}.

(** [insertVerticalMoveToTerrainFloor(i, segments, floor)], on the zipper:
    [visited] holds [segments[0..i-1]] in reverse, [segment] is [segments[i]].
    The result is the new reversed prefix, up to and including the exit
    segment; its length grows by [numAdded] + 1.  When there is no previous
    segment the fallback [{ to: segment.from }] reads this segment's [from],
    whose elevation was just set to [floor]. *)
Definition insertVerticalMoveToTerrainFloor (visited : list Segment) (segment : Segment) (floor : Q)
  : list Segment :=
  let segment' := setSegmentElevations segment floor floor in
  let prevTo := match visited with
                | prev :: _ => prev.(to)
                | [] => segment'.(from)
                end in
  if negb (Qeq_bool prevTo.(elevation) floor)
  then segment' :: constructVerticalMoveSegment prevTo floor :: visited
  else segment' :: visited.

(** ** Behaviors *)

(** [FLAGS.REGION.CHOICES] *)
Inductive Algorithm := NONE | PLATEAU | RAMP | STAIRS.

Definition Algorithm_eqb (a b : Algorithm) : bool :=
  match a, b with
  | NONE, NONE | PLATEAU, PLATEAU | RAMP, RAMP | STAIRS, STAIRS => true
  | _, _ => false
  end.

(** The data of [behavior.system] read by the adjusters. *)
Record BehaviorSystem := {
  algorithm : Algorithm;
  sys_elevation : Q;   (** [behavior.system.elevation] *)
  sys_floor : Q;       (** [behavior.system.floor] *)
  reset : bool
}.

Record Behavior := {
  behavior_type : string;
  disabled : bool;
  system : BehaviorSystem
}.

Definition MODULE_ID : string := "terrainmapper".

Definition setElevationType : string := MODULE_ID ++ ".setElevation".

(** The guard that opens each adjuster:
    [behavior.type !== `${MODULE_ID}.setElevation` || behavior.disabled
     || behavior.system.algorithm !== choice]. *)
Definition skipsBehavior (behavior : Behavior) (choice : Algorithm) : bool :=
  negb (String.eqb behavior.(behavior_type) setElevationType)
  || behavior.(disabled)
  || negb (Algorithm_eqb behavior.(system).(algorithm) choice).

Section Adjusters.

(** [canvas.scene?.getFlag(MODULE_ID, FLAGS.SCENE.BACKGROUND_ELEVATION)] *)
Variable sceneBackgroundElevation : option Q.

(** [behavior.system.plateauSegmentIntersection(a, b)] and
    [behavior.system.plateauElevation(waypoint)]: methods of the behavior
    type, left abstract (every statement below holds for all of them). *)
Variable systemPlateauSegmentIntersection : BehaviorSystem -> Waypoint -> Waypoint -> option Waypoint.
Variable systemPlateauElevation : BehaviorSystem -> Waypoint -> Q.

(** [canvas.scene?.getFlag(...) ?? 0] *)
Definition terrainFloor : Q :=
  match sceneBackgroundElevation with Some e => e | None => 0 end.

(** The [for] loop of [modifySegmentsForPlateau].  [fuel] bounds the
    number of iterations: a freefall split puts its lower half back in
    front of the segments still to visit.  If the fuel runs out, the
    segments not yet visited are left as they are. *)
Fixpoint plateauLoop (sys : BehaviorSystem) (freefall : bool) (fuel : nat)
    (entered : bool) (visited todo : list Segment) : list Segment :=
  (* const { elevation, reset } = behavior.system *)
  let elev := sys.(sys_elevation) in
  match fuel with
  | O => rev visited ++ todo
  | S fuel' =>
    match todo with
    | [] => rev visited
    | segment :: rest =>
      match segment.(type) with
      | ENTER =>
          (* If already at elevation, we are finished. *)
          if Qeq_bool elev segment.(to).(elevation)
          then plateauLoop sys freefall fuel' true (segment :: visited) rest
          else plateauLoop sys freefall fuel' true
                 (constructVerticalMoveSegment segment.(to) elev :: segment :: visited) rest
      | MOVE =>
          if entered then
            plateauLoop sys freefall fuel' entered
              (setSegmentElevations segment
                 (Qmax elev segment.(from).(elevation))
                 (Qmax elev segment.(to).(elevation)) :: visited) rest
          else if freefall && Qlt_bool elev segment.(from).(elevation)
                  && Qlt_bool segment.(to).(elevation) elev then
            let ix := if regionWaypointsXYEqual segment.(from) segment.(to)
                      then Some (withElevation segment.(from) elev)
                      else systemPlateauSegmentIntersection sys segment.(from) segment.(to) in
            match ix with
            | Some ix =>
                if regionWaypointsEqual ix segment.(from) || regionWaypointsEqual ix segment.(to)
                then plateauLoop sys freefall fuel' entered (segment :: visited) rest
                else
                  (* segments.splice(i, 1, toIx, fromIx) *)
                  let toIx := {| type := MOVE; from := segment.(from); to := ix |} in
                  let fromIx := {| type := MOVE; from := ix; to := segment.(to) |} in
                  plateauLoop sys freefall fuel' entered (toIx :: visited) (fromIx :: rest)
            | None => plateauLoop sys freefall fuel' entered (segment :: visited) rest
            end
          else plateauLoop sys freefall fuel' entered (segment :: visited) rest
      | EXIT =>
          if negb sys.(reset) then plateauLoop sys freefall fuel' false (segment :: visited) rest
          else if negb (freefall || (entered && negb (Qeq_bool elev segment.(from).(elevation))))
          then plateauLoop sys freefall fuel' false (segment :: visited) rest
          else plateauLoop sys freefall fuel' false
                 (insertVerticalMoveToTerrainFloor visited segment terrainFloor) rest
      end
    end
  end.

(** Each array element is visited once, a split's lower half once more. *)
Definition loopFuel (segments : list Segment) : nat := S (2 * List.length segments).

(** [modifySegmentsForPlateau(segments, behavior, freefall)] *)
Definition modifySegmentsForPlateau (segments : list Segment) (behavior : Behavior) (freefall : bool)
  : list Segment :=
  if skipsBehavior behavior PLATEAU then segments
  else plateauLoop behavior.(system) freefall (loopFuel segments) false [] segments.

(** The [for] loop of [modifySegmentsForStairs], with its state
    [entered], [up] and [targetElevation]; [midE] is computed once. *)
Fixpoint stairsLoop (sys : BehaviorSystem) (midE : Q)
    (entered up : bool) (targetElevation : Q) (visited todo : list Segment) : list Segment :=
  (* const { elevation, floor, reset } = behavior.system *)
  let elev := sys.(sys_elevation) in
  let floor := sys.(sys_floor) in
  match todo with
  | [] => rev visited
  | segment :: rest =>
    match segment.(type) with
    | ENTER =>
        let up' := Qle_bool segment.(from).(elevation) midE in
        stairsLoop sys midE true up' (if up' then elev else floor) (segment :: visited) rest
    | MOVE =>
        if negb entered then stairsLoop sys midE entered up targetElevation (segment :: visited) rest
        else
          let cmpFn := if up then Qmax else Qmin in
          stairsLoop sys midE entered up targetElevation
            (setSegmentElevations segment
               (cmpFn targetElevation segment.(from).(elevation))
               (cmpFn targetElevation segment.(to).(elevation)) :: visited) rest
    | EXIT =>
        if negb (entered || Qeq_bool elev segment.(from).(elevation)
                 || Qeq_bool floor segment.(from).(elevation))
        then stairsLoop sys midE entered up targetElevation (segment :: visited) rest
        else if negb sys.(reset)
        then stairsLoop sys midE false up targetElevation (segment :: visited) rest
        else stairsLoop sys midE false up targetElevation
               (insertVerticalMoveToTerrainFloor visited segment terrainFloor) rest
    end
  end.

(** [Math.round((elevation - floor) * 0.5)] *)
Definition stairsMidE (sys : BehaviorSystem) : Q :=
  jsround ((sys.(sys_elevation) - sys.(sys_floor)) * (1#2)).

(** [modifySegmentsForStairs(segments, behavior)] *)
Definition modifySegmentsForStairs (segments : list Segment) (behavior : Behavior) : list Segment :=
  if skipsBehavior behavior STAIRS then segments
  else stairsLoop behavior.(system) (stairsMidE behavior.(system)) false true
         behavior.(system).(sys_elevation) [] segments.

(** [toIx.to] after a change of [fromIx.from.elevation]: the split shares
    the intersection object [ix] between the two halves. *)
Definition retargetLastTo (visited : list Segment) (e : Q) : list Segment :=
  match visited with
  | prev :: older =>
      {| type := prev.(type); from := prev.(from); to := withElevation prev.(to) e |} :: older
  | [] => []
  end.

(** The [for] loop of [modifySegmentsForRamp].  [shared] records that the
    segment about to be visited is the lower half of a split, whose [from]
    is the object [ix] also held as [to] by the previous segment. *)
Fixpoint rampLoop (sys : BehaviorSystem) (freefall : bool) (fuel : nat)
    (entered shared : bool) (visited todo : list Segment) : list Segment :=
  let plateauElevation := systemPlateauElevation sys in
  match fuel with
  | O => rev visited ++ todo
  | S fuel' =>
    match todo with
    | [] => rev visited
    | segment :: rest =>
      match segment.(type) with
      | ENTER =>
          let elev := plateauElevation segment.(to) in
          if Qeq_bool elev segment.(to).(elevation)
          then rampLoop sys freefall fuel' true false (segment :: visited) rest
          else rampLoop sys freefall fuel' true false
                 (constructVerticalMoveSegment segment.(to) elev :: segment :: visited) rest
      | MOVE =>
          let currRampElevation := plateauElevation segment.(from) in
          if entered || almostEqual segment.(from).(elevation) currRampElevation then
            let visited' := if shared then retargetLastTo visited currRampElevation else visited in
            rampLoop sys freefall fuel' entered false
              (setSegmentElevations segment currRampElevation (plateauElevation segment.(to))
                 :: visited') rest
          else if negb (freefall || Qeq_bool segment.(from).(elevation) segment.(to).(elevation))
          then rampLoop sys freefall fuel' entered false (segment :: visited) rest
          else
            match systemPlateauSegmentIntersection sys segment.(from) segment.(to) with
            | None => rampLoop sys freefall fuel' entered false (segment :: visited) rest
            | Some ix =>
                if regionWaypointsEqual ix segment.(from) || regionWaypointsEqual ix segment.(to)
                then rampLoop sys freefall fuel' entered false (segment :: visited) rest
                else
                  let toIx := {| type := MOVE; from := segment.(from); to := ix |} in
                  let fromIx := {| type := MOVE; from := ix; to := segment.(to) |} in
                  rampLoop sys freefall fuel' entered true (toIx :: visited) (fromIx :: rest)
            end
      | EXIT =>
          if negb sys.(reset) then rampLoop sys freefall fuel' false false (segment :: visited) rest
          else if negb (freefall || (entered && negb (Qeq_bool (plateauElevation segment.(from))
                                                          segment.(from).(elevation))))
          then rampLoop sys freefall fuel' false false (segment :: visited) rest
          else rampLoop sys freefall fuel' false false
                 (insertVerticalMoveToTerrainFloor visited segment terrainFloor) rest
      end
    end
  end.

(** [modifySegmentsForRamp(segments, behavior, freefall)] *)
Definition modifySegmentsForRamp (segments : list Segment) (behavior : Behavior) (freefall : bool)
  : list Segment :=
  if skipsBehavior behavior RAMP then segments
  else rampLoop behavior.(system) freefall (loopFuel segments) false false [] segments.

End Adjusters.

(** ** JavaScript numbers and the ramp evaluation *)

(** A JavaScript number: a finite value, NaN or an infinity.  Zero is
    [+0]: the distances divided below are never negative zero. *)
Inductive jsnum := JNum (q : Q) | JNaN | JPosInf | JNegInf.

Definition jsadd (a b : jsnum) : jsnum :=
  match a, b with
  | JNaN, _ | _, JNaN => JNaN
  | JPosInf, JNegInf | JNegInf, JPosInf => JNaN
  | JPosInf, _ | _, JPosInf => JPosInf
  | JNegInf, _ | _, JNegInf => JNegInf
  | JNum p, JNum q => JNum (p + q)
  end.

(** Sign of a finite factor multiplying an infinity. *)
Definition jsScaleInf (positive : bool) (q : Q) : jsnum :=
  if Qeq_bool q 0 then JNaN
  else if Qlt_bool 0 q then (if positive then JPosInf else JNegInf)
  else (if positive then JNegInf else JPosInf).

Definition jsmul (a b : jsnum) : jsnum :=
  match a, b with
  | JNaN, _ | _, JNaN => JNaN
  | JPosInf, JPosInf | JNegInf, JNegInf => JPosInf
  | JPosInf, JNegInf | JNegInf, JPosInf => JNegInf
  | JPosInf, JNum q | JNum q, JPosInf => jsScaleInf true q
  | JNegInf, JNum q | JNum q, JNegInf => jsScaleInf false q
  | JNum p, JNum q => JNum (p * q)
  end.

Definition jsdiv (a b : jsnum) : jsnum :=
  match a, b with
  | JNaN, _ | _, JNaN => JNaN
  | (JPosInf | JNegInf), (JPosInf | JNegInf) => JNaN
  | JPosInf, JNum q => if Qle_bool 0 q then JPosInf else JNegInf
  | JNegInf, JNum q => if Qle_bool 0 q then JNegInf else JPosInf
  | JNum _, (JPosInf | JNegInf) => JNum 0
  | JNum p, JNum q =>
      if Qeq_bool q 0
      then (if Qeq_bool p 0 then JNaN else if Qlt_bool 0 p then JPosInf else JNegInf)
      else JNum (p / q)
  end.

(** [Math.max] and [Math.min]: NaN if either argument is NaN. *)
Definition jsmax (a b : jsnum) : jsnum :=
  match a, b with
  | JNaN, _ | _, JNaN => JNaN
  | JPosInf, _ | _, JPosInf => JPosInf
  | JNegInf, c | c, JNegInf => c
  | JNum p, JNum q => JNum (Qmax p q)
  end.

Definition jsmin (a b : jsnum) : jsnum :=
  match a, b with
  | JNaN, _ | _, JNaN => JNaN
  | JNegInf, _ | _, JNegInf => JNegInf
  | JPosInf, c | c, JPosInf => c
  | JNum p, JNum q => JNum (Qmin p q)
  end.

(** Foundry's [Math.clamp(num, min, max)] = [Math.min(Math.max(num, min), max)]. *)
Definition jsclamp (num lo hi : jsnum) : jsnum := jsmin (jsmax num lo) hi.

(** [Math.floor] and [Math.round]. *)
Definition jsfloorN (a : jsnum) : jsnum :=
  match a with JNum q => JNum (inject_Z (Qfloor q)) | c => c end.
Definition jsroundN (a : jsnum) : jsnum :=
  match a with JNum q => JNum (jsround q) | c => c end.

(** [t0.almostEqual(v)]: [Math.abs(t0 - v) <= 1e-8], false for NaN and
    the infinities. *)
Definition jsAlmostEqual (a : jsnum) (v : Q) : bool :=
  match a with JNum q => almostEqual q v | _ => false end.

(** A 2d point [{ x, y }]. *)
Record Point := { px : Q; py : Q }.

(** [{ min, max }]: where the region first and last meets the line
    orthogonal to the ramp direction. *)
Record MinMax := { minPoint : Point; maxPoint : Point }.

(** The getters of a [RegionElevationHandler] read by [#rampElevation]:
    [plateauElevation], [rampFloor], [rampStepSize] and the cached [minMax]. *)
Record RegionElevationHandler := {
  plateauElevation : Q;
  rampFloor : Q;
  rampStepSize : option Q;
  minMax : option MinMax
}.

(** [const { ..., rampStepHeight } = this]: the class has no
    [rampStepHeight] getter (its step getter is [rampStepSize]), so the
    destructuring reads [undefined]. *)
Definition rampStepHeight (_ : RegionElevationHandler) : option Q := None.

(** The body of [#rampElevation] after the two distances are measured:
    [dClosest] from [minMax.min] to the closest point, [dMinMax] from
    [minMax.min] to [minMax.max]; [stepHeight] is the value read as
    [rampStepHeight] ([None] for [undefined]). *)
Definition rampElevationFromDistances (stepHeight : option Q) (floor ceiling : Q)
    (dClosest dMinMax : jsnum) : jsnum :=
  let t0 := jsclamp (jsdiv dClosest dMinMax) (JNum 0) (JNum 1) in
  if jsAlmostEqual t0 0 then JNum floor
  else if jsAlmostEqual t0 1 then JNum ceiling
  else
    let delta := ceiling - floor in
    let continuous := jsroundN (jsadd (JNum floor) (jsmul t0 (JNum delta))) in
    match stepHeight with
    | None => continuous
    | Some h =>
        if Qeq_bool h 0 then continuous
        else jsroundN (jsadd (JNum floor)
                        (jsmul (jsfloorN (jsdiv (jsmul t0 (JNum delta)) (JNum h))) (JNum h)))
    end.

Section RampElevation.

(** [foundry.utils.closestPointToSegment], with [None] for a thrown error,
    and [PIXI.Point.distanceBetween]. *)
Variable closestPointToSegment : Waypoint -> Point -> Point -> option Point.
Variable distanceBetween : Point -> Point -> jsnum.

(** [#rampElevation(waypoint)]; [None] when an error propagates out. *)
Definition rampElevation (handler : RegionElevationHandler) (waypoint : Waypoint) : option jsnum :=
  match handler.(minMax) with
  | None => Some (JNum waypoint.(elevation))
  | Some mm =>
      match closestPointToSegment waypoint mm.(minPoint) mm.(maxPoint) with
      | None => None
      | Some closestPt =>
          Some (rampElevationFromDistances (rampStepHeight handler) handler.(rampFloor)
                  handler.(plateauElevation)
                  (distanceBetween mm.(minPoint) closestPt) (distanceBetween mm.(minPoint) mm.(maxPoint)))
      end
  end.

End RampElevation.

(** Stand-ins for the host geometry, to evaluate the ramp on concrete
    scenes: the projection of a point on a segment (an error for a
    zero-length segment) and the distance between two points on a common
    horizontal or vertical line. *)
Definition closestPointToSegmentQ (c : Waypoint) (a b : Point) : option Point :=
  let dx := b.(px) - a.(px) in
  let dy := b.(py) - a.(py) in
  if Qeq_bool dx 0 && Qeq_bool dy 0 then None
  else
    let u := ((c.(x) - a.(px)) * dx + (c.(y) - a.(py)) * dy) / (dx * dx + dy * dy) in
    if Qlt_bool u 0 then Some a
    else if Qlt_bool 1 u then Some b
    else Some {| px := a.(px) + u * dx; py := a.(py) + u * dy |}.

Definition distanceAlongAxis (p q : Point) : jsnum :=
  JNum (Qred (Qabs (q.(px) - p.(px)) + Qabs (q.(py) - p.(py)))).

(** A ramp from elevation [0] at [x = 0] to [10] at [x = 10], with a step
    size of [3]; and a ramp whose min and max points coincide. *)
Definition ramp0to10step3 : RegionElevationHandler :=
  {| plateauElevation := 10; rampFloor := 0; rampStepSize := Some 3;
     minMax := Some {| minPoint := {| px := 0; py := 0 |}; maxPoint := {| px := 10; py := 0 |} |} |}.

Definition degenerateRamp : RegionElevationHandler :=
  {| plateauElevation := 10; rampFloor := 0; rampStepSize := None;
     minMax := Some {| minPoint := {| px := 1; py := 0 |}; maxPoint := {| px := 1; py := 0 |} |} |}.

(** ** Axis points of polygons and regions *)

(** A [PIXI.Polygon], its points as pairs, and a [PIXI.Rectangle]. *)
Record Polygon := { points : list Point }.
Record Rectangle := { left : Q; top : Q; right : Q; bottom : Q }.

(** [poly.getBounds()]: the bounding box of the points (a region's
    polygons have points; an empty one is given the zero box). *)
Definition getBounds (poly : Polygon) : Rectangle :=
  match poly.(points) with
  | [] => {| left := 0; top := 0; right := 0; bottom := 0 |}
  | p :: ps =>
      fold_left (fun r q => {| left := Qmin r.(left) q.(px); top := Qmin r.(top) q.(py);
                               right := Qmax r.(right) q.(px); bottom := Qmax r.(bottom) q.(py) |})
        ps {| left := p.(px); top := p.(py); right := p.(px); bottom := p.(py) |}
  end.

(** [PIXI.Point.distanceSquaredBetween]. *)
Definition distanceSquaredBetween (p q : Point) : Q :=
  (p.(px) - q.(px)) * (p.(px) - q.(px)) + (p.(py) - q.(py)) * (p.(py) - q.(py)).

(** What [minMaxRegionPointsAlongAxis] ends in: [undefined], a
    [TypeError] (reading [min] of an [undefined] polygon result), or points. *)
Inductive RegionMinMax :=
| RMUndefined
| RMTypeError
| RMPoints (mm : MinMax).

(** A region: its polygons and the center of its bounds. *)
Record Region := { polygons : list Polygon; boundsCenter : Point }.

Section AxisPoints.

(** The rotation matrix applied to one point: [rotatePoint a c p] rotates
    [p] about [c] by the angle of [a] degrees (the code passes
    [Math.toRadians(a)]). *)
Variable rotatePoint : Z -> Point -> Point -> Point.

(** [rotatePolygon(poly, rotation, centroid)]: the polygon itself for a
    zero rotation, else each point multiplied by the matrix. *)
Definition rotatePolygon (poly : Polygon) (rotation : Z) (centroid : Point) : Polygon :=
  if Z.eqb rotation 0 then poly
  else {| points := map (rotatePoint rotation centroid) poly.(points) |}.

(** [minMaxPolygonPointsAlongAxis(poly, direction, centroid)]; [None] is the
    [undefined] of a switch that matches no case.  [direction % 90] is the
    truncated remainder [Z.rem]. *)
Definition minMaxPolygonPointsAlongAxis (poly : Polygon) (direction : Z) (centroid : Point)
    : option MinMax :=
  if negb (Z.eqb (Z.rem direction 90) 0) then
    let rotatedPoly := rotatePolygon poly (360 - direction) centroid in
    let bounds := getBounds rotatedPoly in
    let minMaxRotatedPoly := {| points := [ {| px := centroid.(px); py := bounds.(top) |};
                                            {| px := centroid.(px); py := bounds.(bottom) |} ] |} in
    let minMaxPoly := rotatePolygon minMaxRotatedPoly (- (360 - direction)) centroid in
    match minMaxPoly.(points) with
    | p0 :: p1 :: _ => Some {| minPoint := p0; maxPoint := p1 |}
    | _ => None
    end
  else
    let bounds := getBounds poly in
    if Z.eqb direction 0 then
      Some {| minPoint := {| px := centroid.(px); py := bounds.(top) |};
              maxPoint := {| px := centroid.(px); py := bounds.(bottom) |} |}
    else if Z.eqb direction 90 then
      Some {| minPoint := {| px := bounds.(right); py := centroid.(py) |};
              maxPoint := {| px := bounds.(left); py := centroid.(py) |} |}
    else if Z.eqb direction 180 then
      Some {| minPoint := {| px := centroid.(px); py := bounds.(bottom) |};
              maxPoint := {| px := centroid.(px); py := bounds.(top) |} |}
    else if Z.eqb direction 270 then
      Some {| minPoint := {| px := bounds.(left); py := centroid.(py) |};
              maxPoint := {| px := bounds.(right); py := centroid.(py) |} |}
    else None.

(** [poly._isPositive]: the polygon is not a hole. *)
Variable isPositive : Polygon -> bool.

(** The loop of [minMaxRegionPointsAlongAxis] over the polygons after the
    first: [minMax] with the [_dist2] of its two points.  As written, the
    candidate's [_dist2] is measured from [minMax.min] and [minMax.max]. *)
Fixpoint regionAxisLoop (direction : Z) (center : Point) (minMax : MinMax) (minDist2 maxDist2 : Q)
    (polys : list Polygon) : RegionMinMax :=
  match polys with
  | [] => RMPoints minMax
  | poly :: polys' =>
      match minMaxPolygonPointsAlongAxis poly direction center with
      | None => RMTypeError
      | Some res =>
          let resMinDist2 := distanceSquaredBetween minMax.(minPoint) center in
          let resMaxDist2 := distanceSquaredBetween minMax.(maxPoint) center in
          let '(newMin, newMinDist2) :=
            if Qlt_bool minDist2 resMinDist2 then (res.(minPoint), resMinDist2)
            else (minMax.(minPoint), minDist2) in
          let '(newMax, newMaxDist2) :=
            if Qlt_bool maxDist2 resMaxDist2 then (res.(maxPoint), resMaxDist2)
            else (minMax.(maxPoint), maxDist2) in
          regionAxisLoop direction center {| minPoint := newMin; maxPoint := newMax |}
            newMinDist2 newMaxDist2 polys'
      end
  end.

(** [minMaxRegionPointsAlongAxis(region, direction)] (and the handler's
    private copy [#minMaxRegionPointsAlongAxis], which has the same body). *)
Definition minMaxRegionPointsAlongAxis (region : Region) (direction : Z) : RegionMinMax :=
  let polys := filter isPositive region.(polygons) in
  let center := region.(boundsCenter) in
  match polys with
  | [] => RMUndefined
  | poly0 :: polys' =>
      match minMaxPolygonPointsAlongAxis poly0 direction center with
      | None => RMTypeError
      | Some minMax =>
          regionAxisLoop direction center minMax
            (distanceSquaredBetween minMax.(minPoint) center)
            (distanceSquaredBetween minMax.(maxPoint) center) polys'
      end
  end.

(** The same loop with the [_dist2] of the candidate taken from the
    candidate's own points, as the comment above it says. *)
Fixpoint regionAxisLoopFarther (direction : Z) (center : Point) (minMax : MinMax) (polys : list Polygon)
    : RegionMinMax :=
  match polys with
  | [] => RMPoints minMax
  | poly :: polys' =>
      match minMaxPolygonPointsAlongAxis poly direction center with
      | None => RMTypeError
      | Some res =>
          let newMin := if Qlt_bool (distanceSquaredBetween minMax.(minPoint) center)
                                    (distanceSquaredBetween res.(minPoint) center)
                        then res.(minPoint) else minMax.(minPoint) in
          let newMax := if Qlt_bool (distanceSquaredBetween minMax.(maxPoint) center)
                                    (distanceSquaredBetween res.(maxPoint) center)
                        then res.(maxPoint) else minMax.(maxPoint) in
          regionAxisLoopFarther direction center {| minPoint := newMin; maxPoint := newMax |} polys'
      end
  end.

Definition minMaxRegionPointsFarther (region : Region) (direction : Z) : RegionMinMax :=
  let center := region.(boundsCenter) in
  match filter isPositive region.(polygons) with
  | [] => RMUndefined
  | poly0 :: polys' =>
      match minMaxPolygonPointsAlongAxis poly0 direction center with
      | None => RMTypeError
      | Some minMax => regionAxisLoopFarther direction center minMax polys'
      end
  end.

End AxisPoints.

(** Two positive squares, [[0,2] x [0,2]] and [[0,2] x [8,10]]: the
    region's bounds are [[0,2] x [0,10]], centered at [(1, 5)]. *)
Definition pt (a b : Q) : Point := {| px := a; py := b |}.
Definition squareLow : Polygon := {| points := [pt 0 0; pt 2 0; pt 2 2; pt 0 2] |}.
Definition squareHigh : Polygon := {| points := [pt 0 8; pt 2 8; pt 2 10; pt 0 10] |}.
Definition twoSquares : Region := {| polygons := [squareLow; squareHigh]; boundsCenter := pt 1 5 |}.
Definition noRotation : Z -> Point -> Point -> Point := fun _ _ p => p.
Definition allPositive : Polygon -> bool := fun _ => true.

(** ** The plateau segment intersection *)

(** Foundry's [Number#between(a, b)], inclusive, in either order. *)
Definition between (n a b : Q) : bool := Qle_bool (Qmin a b) n && Qle_bool n (Qmax a b).

Section PlateauIntersection.

(** [Region[MODULE_ID].nearestGroundElevation], and the intersection with
    the plateau or ramp plane taken by a non-vertical segment. *)
Variable nearestGroundElevation : Waypoint -> Q.
Variable planeIntersection : Waypoint -> Waypoint -> option Waypoint.

(** [RegionElevationHandler#plateauSegmentIntersection(a, b)]; [None] is
    [null]. *)
Definition plateauSegmentIntersection (a b : Waypoint) : option Waypoint :=
  if regionWaypointsXYEqual a b then
    let e := Qmax (nearestGroundElevation a) (nearestGroundElevation b) in
    if between e a.(elevation) b.(elevation) then Some (withElevation a e) else None
  else planeIntersection a b.

End PlateauIntersection.

(** ** Concrete scenes and paths *)

(** A scene without a background elevation flag, behavior methods that
    find no intersection and read a waypoint's own elevation. *)
Definition noSceneFlag : option Q := None.
Definition noIntersection : BehaviorSystem -> Waypoint -> Waypoint -> option Waypoint :=
  fun _ _ _ => None.
Definition ownElevation : BehaviorSystem -> Waypoint -> Q := fun _ w => w.(elevation).

Definition wp (px py pe : Q) : Waypoint := {| x := px; y := py; elevation := pe |}.
Definition seg (t : SegmentType) (a b : Waypoint) : Segment := {| type := t; from := a; to := b |}.

Definition setElevationBehavior (alg : Algorithm) (top floor : Q) (rst dis : bool) : Behavior :=
  {| behavior_type := setElevationType;
     disabled := dis;
     system := {| algorithm := alg; sys_elevation := top; sys_floor := floor; reset := rst |} |}.

(** A plateau at elevation 10 with reset; the scene floor is 0. *)
Definition plateau10 : Behavior := setElevationBehavior PLATEAU 10 0 true false.

(** Enter at ground level, move one square, exit. *)
Definition walkAcross : list Segment :=
  [ seg ENTER (wp 0 0 0) (wp 1 0 0);
    seg MOVE (wp 1 0 0) (wp 2 0 0);
    seg EXIT (wp 2 0 0) (wp 3 0 0) ].

Definition enterOnly : list Segment := [ seg ENTER (wp 0 0 0) (wp 1 0 0) ].

(** What [PIXI.Point.distanceBetween] can return: a non-negative number,
    NaN (from NaN coordinates) or +Infinity. *)
Definition isDistance (d : jsnum) : Prop :=
  d = JNaN \/ d = JPosInf \/ exists q, d = JNum q /\ 0 <= q.

(** Stairs from 20 up to 30.  The midpoint of the code is
    [Math.round((30 - 20) * 0.5)] = 5. *)
Definition stairs20to30 : Behavior := setElevationBehavior STAIRS 30 20 false false.

(** ** The region mesh *)

(** The [{ hatchX, hatchY }] of [calculateHatchXY]. *)
Record Hatch := { hatchX : Q; hatchY : Q }.

(** [calculateHatchXY(direction)]; [None] is the [undefined] returned when
    no branch applies (a direction above 360). *)
Definition calculateHatchXY (direction : Q) : option Hatch :=
  if Qle_bool direction 90 then
    let t0 := direction / 90 in Some {| hatchX := - t0; hatchY := 1 - t0 |}
  else if Qle_bool direction 180 then
    let t0 := (direction - 90) / 90 in Some {| hatchX := 1 - t0; hatchY := t0 |}
  else if Qle_bool direction 270 then
    let t0 := (direction - 180) / 90 in Some {| hatchX := t0; hatchY := t0 - 1 |}
  else if Qle_bool direction 360 then
    let t0 := (direction - 270) / 90 in Some {| hatchX := t0 - 1; hatchY := - t0 |}
  else None.

(** The uniforms of the region's mesh shader written by
    [_refreshTerrainMapperMesh]. *)
Record MeshUniforms := {
  u_hatchThickness : Q;
  u_border : list Q;
  u_hatchX : Q;
  u_hatchY : Q;
  u_insetPercentage : Q;
  u_insetBorderThickness : Q
}.

(** [mesh.shader.uniforms.hatchThickness = hatchThickness] *)
Definition setHatchThickness (u : MeshUniforms) (t : Q) : MeshUniforms :=
  {| u_hatchThickness := t; u_border := u.(u_border); u_hatchX := u.(u_hatchX);
     u_hatchY := u.(u_hatchY); u_insetPercentage := u.(u_insetPercentage);
     u_insetBorderThickness := u.(u_insetBorderThickness) |}.

(** How [_refreshTerrainMapperMesh] ends: normally, with the uniforms of the
    mesh if the region has one, or with a [TypeError] (reading [hatchX] of
    an [undefined] result), with the uniforms written so far. *)
Inductive RefreshResult :=
| RefreshDone (mesh : option MeshUniforms)
| RefreshTypeError (mesh : MeshUniforms).

(** The enabled [setElevation] behavior that
    [this.document.behaviors.find(...)] picks. *)
Definition isActiveSetElevation (b : Behavior) : bool :=
  String.eqb b.(behavior_type) setElevationType && negb b.(disabled).

Section MeshRefresh.

(** [behavior.system.rampDirection] (not read by the adjusters). *)
Variable rampDirection : Behavior -> Q.

(** [Region#_refreshTerrainMapperMesh]: [size] is [canvas.dimensions.size],
    [bounds] the region's bounds and [mesh] the uniforms of its mesh. *)
Definition refreshTerrainMapperMesh (size : Q) (bounds : Rectangle) (behaviors : list Behavior)
    (mesh : option MeshUniforms) : RefreshResult :=
  match mesh with
  | None => RefreshDone None
  | Some u =>
      let hatchThickness := size / 10 in
      let u1 := setHatchThickness u hatchThickness in
      match find isActiveSetElevation behaviors with
      | None => RefreshDone (Some u1)
      | Some behavior =>
          let insetBorderThickness := hatchThickness in
          let write hx hy ht inset :=
            RefreshDone (Some {| u_hatchThickness := ht;
                                 u_border := [bounds.(left); bounds.(top); bounds.(right); bounds.(bottom)];
                                 u_hatchX := hx; u_hatchY := hy; u_insetPercentage := inset;
                                 u_insetBorderThickness := insetBorderThickness |}) in
          match behavior.(system).(algorithm) with
          | PLATEAU => write 1 1 0 (1#10)
          | STAIRS => write 0 1 hatchThickness 0
          | RAMP =>
              match calculateHatchXY (rampDirection behavior) with
              | None => RefreshTypeError u1
              | Some res => write res.(hatchX) res.(hatchY) hatchThickness (1#10)
              end
          | NONE => write 1 1 hatchThickness 0
          end
      end
  end.

End MeshRefresh.

(** ** Segmentizing a movement *)

Section Segmentize.

Variable sceneBackgroundElevation : option Q.
Variable systemPlateauSegmentIntersection : BehaviorSystem -> Waypoint -> Waypoint -> option Waypoint.
Variable systemPlateauElevation : BehaviorSystem -> Waypoint -> Q.

(** One pass of the loop of [segmentizeMovement] over the region's
    behaviors: the three adjusters in turn, each acting on the array the
    previous one mutated. *)
Definition adjustForBehavior (freefall : bool) (segments : list Segment) (behavior : Behavior)
    : list Segment :=
  let s1 := modifySegmentsForPlateau sceneBackgroundElevation systemPlateauSegmentIntersection
              segments behavior freefall in
  let s2 := modifySegmentsForStairs sceneBackgroundElevation s1 behavior in
  modifySegmentsForRamp sceneBackgroundElevation systemPlateauSegmentIntersection systemPlateauElevation
    s2 behavior freefall.

(** The wrapper [segmentizeMovement]: [segments] is what the wrapped
    Foundry method returns, [behaviors] is [this.document.behaviors]. *)
Definition segmentizeMovement (segments : list Segment) (behaviors : list Behavior) (freefall : bool)
    : list Segment :=
  match segments with
  | [] => segments
  | _ => fold_left (adjustForBehavior freefall) behaviors segments
  end.

(** What one behavior does to the segments in [segmentizeMovement] when
    only the adjuster of its algorithm is run. *)
Definition adjusterFor (freefall : bool) (segments : list Segment) (behavior : Behavior) : list Segment :=
  match behavior.(system).(algorithm) with
  | PLATEAU => modifySegmentsForPlateau sceneBackgroundElevation systemPlateauSegmentIntersection
                 segments behavior freefall
  | STAIRS => modifySegmentsForStairs sceneBackgroundElevation segments behavior
  | RAMP => modifySegmentsForRamp sceneBackgroundElevation systemPlateauSegmentIntersection
              systemPlateauElevation segments behavior freefall
  | NONE => segments
  end.

End Segmentize.

(** [RegionElevationHandler.pathFromSegments(segments, { start, end })] *)
Definition pathFromSegments (segments : list Segment) (start end_ : option Waypoint) : list Waypoint :=
  match start with Some s => [s] | None => [] end
  ++ flat_map (fun segment =>
                 match segment.(type) with
                 | ENTER => [segment.(to)]
                 | MOVE => [segment.(from); segment.(to)]
                 | EXIT => [segment.(to)]
                 end) segments
  ++ match end_ with Some e => [e] | None => [] end.

(** The elevations the MOVE branch of each adjuster writes into a segment
    once the path is inside the region. *)
Definition plateauMoveElevations (elev : Q) (segment : Segment) : Segment :=
  setSegmentElevations segment (Qmax elev segment.(from).(elevation)) (Qmax elev segment.(to).(elevation)).

Definition stairsMoveElevations (up : bool) (targetElevation : Q) (segment : Segment) : Segment :=
  let cmpFn := if up then Qmax else Qmin in
  setSegmentElevations segment (cmpFn targetElevation segment.(from).(elevation))
    (cmpFn targetElevation segment.(to).(elevation)).

Definition rampMoveElevations (plateauElevation : Waypoint -> Q) (segment : Segment) : Segment :=
  setSegmentElevations segment (plateauElevation segment.(from)) (plateauElevation segment.(to)).

(** The type and the x, y of both ends of a segment: what an adjuster
    leaves alone when it only rewrites elevations. *)
Definition segmentShape (s : Segment) : SegmentType * Q * Q * Q * Q :=
  (s.(type), s.(from).(x), s.(from).(y), s.(to).(x), s.(to).(y)).

(** * Proofs *)

Section AdjusterFacts.

Variable sceneBackgroundElevation : option Q.
Variable systemPlateauSegmentIntersection : BehaviorSystem -> Waypoint -> Waypoint -> option Waypoint.
Variable systemPlateauElevation : BehaviorSystem -> Waypoint -> Q.

Local Abbreviation terrainFloor := (terrainFloor sceneBackgroundElevation).
Local Abbreviation plateauLoop := (plateauLoop sceneBackgroundElevation systemPlateauSegmentIntersection).
Local Abbreviation modifySegmentsForPlateau :=
  (modifySegmentsForPlateau sceneBackgroundElevation systemPlateauSegmentIntersection).
Local Abbreviation modifySegmentsForStairs := (modifySegmentsForStairs sceneBackgroundElevation).
Local Abbreviation modifySegmentsForRamp :=
  (modifySegmentsForRamp sceneBackgroundElevation systemPlateauSegmentIntersection systemPlateauElevation).

(** ** Facts about the scans *)

Lemma Qeq_bool_false_of_lt (a b : Q) : a < b -> Qeq_bool b a = false.
Proof.
  intros Hlt. apply Bool.not_true_iff_false. intros Heq.
  apply Qeq_bool_iff in Heq. rewrite Heq in Hlt. apply (Qlt_irrefl a). exact Hlt.
Qed.

Lemma Qeq_bool_false_of_neq (a b : Q) : ~ (a == b) -> Qeq_bool a b = false.
Proof.
  intros Hneq. apply Bool.not_true_iff_false. intros Heq. apply Hneq, Qeq_bool_iff, Heq.
Qed.

Lemma prefix_extend (out visited added : list Segment) :
  (exists tail, out = rev (added ++ visited) ++ tail) -> exists tail, out = rev visited ++ tail.
Proof.
  intros [tail Ht]. exists (rev added ++ tail).
  rewrite Ht, rev_app_distr, app_assoc. reflexivity.
Qed.

Lemma insertVerticalMoveToTerrainFloor_extends (visited : list Segment) (segment : Segment) (floor : Q) :
  exists added, insertVerticalMoveToTerrainFloor visited segment floor = added ++ visited
    /\ (1 <= List.length added)%nat.
Proof.
  unfold insertVerticalMoveToTerrainFloor.
  destruct (negb _).
  - eexists [_; _]. split; [reflexivity | simpl; lia].
  - eexists [_]. split; [reflexivity | simpl; lia].
Qed.

Ltac extend_visited IH :=
  first [ eapply (prefix_extend _ _ [_]); apply IH
        | eapply (prefix_extend _ _ [_; _]); apply IH ].

Ltac extend_insert IH :=
  let added := fresh "added" in
  let Hadd := fresh "Hadd" in
  match goal with
  | |- context [insertVerticalMoveToTerrainFloor ?v ?s ?f] =>
      destruct (insertVerticalMoveToTerrainFloor_extends v s f) as [added [Hadd _]]
  end;
  rewrite Hadd; apply (prefix_extend _ _ added); apply IH.

(** The plateau scan never rewrites a segment it has already visited. *)
Lemma plateauLoop_prefix (sys : BehaviorSystem) (freefall : bool) (fuel : nat) :
  forall entered visited todo,
  exists tail, plateauLoop sys freefall fuel entered visited todo = rev visited ++ tail.
Proof.
  induction fuel as [|fuel IH]; intros entered visited todo.
  - exists todo. reflexivity.
  - destruct todo as [|segment rest].
    + exists []. simpl. rewrite app_nil_r. reflexivity.
    + cbn [plateauLoop].
      destruct (type segment).
      * destruct (Qeq_bool _ _); extend_visited IH.
      * destruct entered; [extend_visited IH|].
        destruct (freefall && _ && _); [|extend_visited IH].
        destruct (if regionWaypointsXYEqual _ _ then _ else _) as [ix|]; [|extend_visited IH].
        destruct (_ || _); extend_visited IH.
      * destruct (negb (reset sys)); [extend_visited IH|].
        destruct (negb _); [extend_visited IH|].
        extend_insert IH.
Qed.

(** The plateau scan never drops a segment. *)
Lemma plateauLoop_length (sys : BehaviorSystem) (freefall : bool) (fuel : nat) :
  forall entered visited todo,
  (List.length visited + List.length todo <= List.length (plateauLoop sys freefall fuel entered visited todo))%nat.
Proof.
  induction fuel as [|fuel IH]; intros entered visited todo.
  - simpl. rewrite length_app, length_rev. lia.
  - destruct todo as [|segment rest].
    + simpl. rewrite length_rev. lia.
    + cbn [plateauLoop].
      destruct (type segment).
      * destruct (Qeq_bool _ _);
          [specialize (IH true (segment :: visited) rest)
          |specialize (IH true (constructVerticalMoveSegment (to segment) (sys_elevation sys) :: segment :: visited) rest)];
          simpl in *; lia.
      * destruct entered.
        { match goal with |- context [plateauLoop _ _ _ ?e ?v rest] => specialize (IH e v rest) end.
          simpl in *; lia. }
        destruct (freefall && _ && _).
        2:{ specialize (IH false (segment :: visited) rest). simpl in *; lia. }
        destruct (if regionWaypointsXYEqual _ _ then _ else _) as [ix|].
        2:{ specialize (IH false (segment :: visited) rest). simpl in *; lia. }
        destruct (_ || _).
        { specialize (IH false (segment :: visited) rest). simpl in *; lia. }
        match goal with |- context [plateauLoop _ _ _ ?e ?v ?t] => specialize (IH e v t) end.
        simpl in *; lia.
      * destruct (negb (reset sys)).
        { specialize (IH false (segment :: visited) rest). simpl in *; lia. }
        destruct (negb _).
        { specialize (IH false (segment :: visited) rest). simpl in *; lia. }
        destruct (insertVerticalMoveToTerrainFloor_extends visited segment terrainFloor) as [added [Hadd Hlen]].
        rewrite Hadd. specialize (IH false (added ++ visited) rest).
        rewrite length_app in IH. simpl. lia.
Qed.

Lemma skipsBehavior_of_guard (behavior : Behavior) (choice : Algorithm) :
  behavior.(behavior_type) <> setElevationType \/ behavior.(disabled) = true
  \/ behavior.(system).(algorithm) <> choice ->
  skipsBehavior behavior choice = true.
Proof.
  unfold skipsBehavior. intros [H | [H | H]].
  - apply String.eqb_neq in H. rewrite H. reflexivity.
  - rewrite H, orb_true_r. reflexivity.
  - assert (Halg : Algorithm_eqb (algorithm (system behavior)) choice = false)
      by (destruct (algorithm (system behavior)), choice; simpl; congruence).
    rewrite Halg. apply orb_true_r.
Qed.

Lemma skipsBehavior_false (behavior : Behavior) (choice : Algorithm) :
  behavior.(behavior_type) = setElevationType -> behavior.(disabled) = false
  -> behavior.(system).(algorithm) = choice ->
  skipsBehavior behavior choice = false.
Proof.
  unfold skipsBehavior. intros Ht Hd Ha. rewrite Ht, Hd, Ha, String.eqb_refl.
  destruct choice; reflexivity.
Qed.

(** ** Claims on the adjusters *)

(** C10: when the behavior is not a [setElevation] behavior, is disabled,
    or has an algorithm other than the adjuster's own, the plateau, stairs
    and ramp adjusters return the segment list unchanged. *)
Theorem modifySegments_guard_noop (segments : list Segment) (behavior : Behavior) (freefall : bool) :
  (behavior.(behavior_type) <> setElevationType \/ behavior.(disabled) = true
     \/ behavior.(system).(algorithm) <> PLATEAU ->
   modifySegmentsForPlateau segments behavior freefall = segments)
  /\ (behavior.(behavior_type) <> setElevationType \/ behavior.(disabled) = true
     \/ behavior.(system).(algorithm) <> STAIRS ->
   modifySegmentsForStairs segments behavior = segments)
  /\ (behavior.(behavior_type) <> setElevationType \/ behavior.(disabled) = true
     \/ behavior.(system).(algorithm) <> RAMP ->
   modifySegmentsForRamp segments behavior freefall = segments).
Proof.
  split; [|split]; intros Hguard.
  - unfold modifySegmentsForPlateau. rewrite (skipsBehavior_of_guard _ _ Hguard). reflexivity.
  - unfold modifySegmentsForStairs. rewrite (skipsBehavior_of_guard _ _ Hguard). reflexivity.
  - unfold modifySegmentsForRamp. rewrite (skipsBehavior_of_guard _ _ Hguard). reflexivity.
Qed.

(** C6: visiting an ENTER segment whose destination is below the plateau
    elevation splices exactly one vertical MOVE (same x, y; from the old
    elevation up to the plateau elevation) right after it, and the scan
    resumes after that move; an ENTER segment already at the plateau
    elevation gets nothing spliced after it. *)
Theorem plateau_enter_splices_vertical_move (sys : BehaviorSystem) (freefall : bool) (fuel : nat)
    (entered : bool) (visited : list Segment) (segment : Segment) (rest : list Segment) :
  segment.(type) = ENTER ->
  (segment.(to).(elevation) < sys.(sys_elevation) ->
     plateauLoop sys freefall (S fuel) entered visited (segment :: rest)
       = plateauLoop sys freefall fuel true
           (constructVerticalMoveSegment segment.(to) sys.(sys_elevation) :: segment :: visited) rest
     /\ exists tail, plateauLoop sys freefall (S fuel) entered visited (segment :: rest)
          = rev visited ++ segment :: constructVerticalMoveSegment segment.(to) sys.(sys_elevation) :: tail)
  /\ (segment.(to).(elevation) == sys.(sys_elevation) ->
     plateauLoop sys freefall (S fuel) entered visited (segment :: rest)
       = plateauLoop sys freefall fuel true (segment :: visited) rest).
Proof.
  intros Htype. split; intros Helev.
  - assert (Hstep : plateauLoop sys freefall (S fuel) entered visited (segment :: rest)
       = plateauLoop sys freefall fuel true
           (constructVerticalMoveSegment segment.(to) sys.(sys_elevation) :: segment :: visited) rest).
    { cbn [plateauLoop]. rewrite Htype, (Qeq_bool_false_of_lt _ _ Helev). reflexivity. }
    split; [exact Hstep|].
    destruct (plateauLoop_prefix sys freefall fuel true
                (constructVerticalMoveSegment segment.(to) sys.(sys_elevation) :: segment :: visited) rest)
      as [tail Htail].
    exists tail. rewrite Hstep, Htail. simpl. rewrite <- !app_assoc. reflexivity.
  - cbn [plateauLoop]. rewrite Htype.
    assert (Heq : Qeq_bool (sys_elevation sys) (elevation (to segment)) = true)
      by (apply Qeq_bool_iff; symmetry; exact Helev).
    rewrite Heq. reflexivity.
Qed.

(** With [reset], when the EXIT segment is
    visited after entering and away from the plateau elevation (or under
    freefall), its own elevations are set to the terrain floor, and one
    vertical MOVE down to the floor is spliced before it when the previous
    segment does not already end at the floor; none is spliced when it
    does, nor when the EXIT segment comes first. *)
Theorem plateau_exit_reset_to_floor (sys : BehaviorSystem) (freefall : bool) (fuel : nat)
    (entered : bool) (visited : list Segment) (segment : Segment) (rest : list Segment) :
  segment.(type) = EXIT -> sys.(reset) = true ->
  freefall = true \/ (entered = true /\ ~ (sys.(sys_elevation) == segment.(from).(elevation))) ->
  let exitAtFloor := setSegmentElevations segment terrainFloor terrainFloor in
  (forall prev older, visited = prev :: older -> ~ (prev.(to).(elevation) == terrainFloor) ->
     exists tail, plateauLoop sys freefall (S fuel) entered visited (segment :: rest)
       = rev visited ++ constructVerticalMoveSegment prev.(to) terrainFloor :: exitAtFloor :: tail)
  /\ (forall prev older, visited = prev :: older -> prev.(to).(elevation) == terrainFloor ->
     exists tail, plateauLoop sys freefall (S fuel) entered visited (segment :: rest)
       = rev visited ++ exitAtFloor :: tail)
  /\ (visited = [] ->
     exists tail, plateauLoop sys freefall (S fuel) entered visited (segment :: rest)
       = exitAtFloor :: tail).
Proof.
  intros Htype Hreset Hwhen exitAtFloor.
  assert (Hstep : plateauLoop sys freefall (S fuel) entered visited (segment :: rest)
    = plateauLoop sys freefall fuel false
        (insertVerticalMoveToTerrainFloor visited segment terrainFloor) rest).
  { cbn [plateauLoop]. rewrite Htype, Hreset.
    destruct Hwhen as [Hff | [Hent Hneq]].
    - rewrite Hff. reflexivity.
    - rewrite Hent, (Qeq_bool_false_of_neq _ _ Hneq), orb_true_r. reflexivity. }
  rewrite Hstep. unfold insertVerticalMoveToTerrainFloor. fold exitAtFloor.
  split; [|split].
  - intros prev older Hv Hneq. subst visited.
    rewrite (Qeq_bool_false_of_neq _ _ Hneq). simpl negb. cbv iota.
    destruct (plateauLoop_prefix sys freefall fuel false
                (exitAtFloor :: constructVerticalMoveSegment (to prev) terrainFloor :: prev :: older) rest)
      as [tail Htail].
    exists tail. rewrite Htail. simpl. rewrite <- !app_assoc. reflexivity.
  - intros prev older Hv Heq. subst visited.
    apply Qeq_bool_iff in Heq. rewrite Heq. simpl negb. cbv iota.
    destruct (plateauLoop_prefix sys freefall fuel false (exitAtFloor :: prev :: older) rest)
      as [tail Htail].
    exists tail. rewrite Htail. simpl. rewrite <- !app_assoc. reflexivity.
  - intros Hv. subst visited.
    assert (Hfloor : Qeq_bool (elevation (from exitAtFloor)) terrainFloor = true)
      by (apply Qeq_bool_iff; reflexivity).
    rewrite Hfloor. simpl negb. cbv iota.
    destruct (plateauLoop_prefix sys freefall fuel false [exitAtFloor] rest) as [tail Htail].
    exists tail. rewrite Htail. reflexivity.
Qed.

(** C4 (as the code does it): the plateau adjustment is not a fixed point.
    Rerunning it on its own output, for a path that starts by entering
    below or above the plateau elevation, adds at least one more segment:
    the ENTER segment keeps its elevation, so a second vertical move is
    spliced after it. *)
Theorem plateau_rerun_adds_segment (behavior : Behavior) (freefall : bool)
    (segment : Segment) (rest : list Segment) :
  behavior.(behavior_type) = setElevationType -> behavior.(disabled) = false ->
  behavior.(system).(algorithm) = PLATEAU ->
  segment.(type) = ENTER -> ~ (segment.(to).(elevation) == behavior.(system).(sys_elevation)) ->
  (List.length (modifySegmentsForPlateau (segment :: rest) behavior freefall)
   < List.length (modifySegmentsForPlateau (modifySegmentsForPlateau (segment :: rest) behavior freefall)
                    behavior freefall))%nat.
Proof.
  intros Ht Hd Ha Htype Hneq.
  pose proof (skipsBehavior_false behavior PLATEAU Ht Hd Ha) as Hskip.
  set (sys := system behavior).
  set (v := constructVerticalMoveSegment segment.(to) sys.(sys_elevation)).
  assert (Hne : Qeq_bool (sys_elevation sys) (elevation (to segment)) = false).
  { apply Qeq_bool_false_of_neq. intros He. apply Hneq. symmetry. exact He. }
  assert (Hfirst : forall fuel visited tail',
    plateauLoop sys freefall (S fuel) false visited (segment :: tail')
    = plateauLoop sys freefall fuel true (v :: segment :: visited) tail').
  { intros fuel visited tail'. cbn [plateauLoop]. rewrite Htype, Hne. reflexivity. }
  destruct (plateauLoop_prefix sys freefall (2 * List.length (segment :: rest)) true [v; segment] rest)
    as [tail Htail].
  assert (Hout : plateauLoop sys freefall (loopFuel (segment :: rest)) false [] (segment :: rest)
                 = segment :: v :: tail).
  { unfold loopFuel. rewrite Hfirst, Htail. reflexivity. }
  unfold modifySegmentsForPlateau. rewrite Hskip. fold sys. rewrite Hout.
  unfold loopFuel. rewrite Hfirst.
  pose proof (plateauLoop_length sys freefall (2 * List.length (segment :: v :: tail)) true
                [v; segment] (v :: tail)) as Hlen.
  simpl in *. lia.
Qed.

End AdjusterFacts.


Lemma modifySegments_guard_noop_witness :
  disabled (setElevationBehavior PLATEAU 10 0 true true) = true
  /\ modifySegmentsForPlateau noSceneFlag noIntersection walkAcross
       (setElevationBehavior PLATEAU 10 0 true true) false = walkAcross
  /\ modifySegmentsForStairs noSceneFlag walkAcross (setElevationBehavior PLATEAU 10 0 true true) = walkAcross
  /\ modifySegmentsForRamp noSceneFlag noIntersection ownElevation walkAcross
       (setElevationBehavior PLATEAU 10 0 true true) false = walkAcross.
Proof.
  destruct (modifySegments_guard_noop noSceneFlag noIntersection ownElevation walkAcross
              (setElevationBehavior PLATEAU 10 0 true true) false) as [Hp [Hs Hr]].
  split; [reflexivity|].
  split; [apply Hp | split; [apply Hs | apply Hr]]; right; left; reflexivity.
Defined.

Lemma plateau_enter_splices_vertical_move_witness :
  (0 < 10)
  /\ plateauLoop noSceneFlag noIntersection plateau10.(system) false 3 false []
       (seg ENTER (wp 0 0 0) (wp 1 0 0) :: [])
     = plateauLoop noSceneFlag noIntersection plateau10.(system) false 2 true
         [constructVerticalMoveSegment (wp 1 0 0) 10; seg ENTER (wp 0 0 0) (wp 1 0 0)] [].
Proof.
  assert (Hlt : 0 < 10) by (vm_compute; reflexivity).
  split; [exact Hlt|].
  exact (proj1 (proj1 (plateau_enter_splices_vertical_move noSceneFlag noIntersection
                         plateau10.(system) false 2 false [] (seg ENTER (wp 0 0 0) (wp 1 0 0)) []
                         eq_refl) Hlt)).
Defined.

Lemma plateau_exit_reset_to_floor_witness :
  ~ (10 == 0)
  /\ exists tail,
     plateauLoop noSceneFlag noIntersection plateau10.(system) false 3 true
       [seg MOVE (wp 1 0 10) (wp 2 0 10)] [seg EXIT (wp 2 0 0) (wp 3 0 0)]
     = rev [seg MOVE (wp 1 0 10) (wp 2 0 10)]
         ++ constructVerticalMoveSegment (wp 2 0 10) 0
         :: setSegmentElevations (seg EXIT (wp 2 0 0) (wp 3 0 0)) 0 0 :: tail.
Proof.
  assert (Hne : ~ (10 == 0)) by (intros H; vm_compute in H; discriminate H).
  split; [exact Hne|].
  exact (proj1 (plateau_exit_reset_to_floor noSceneFlag noIntersection plateau10.(system) false 2 true
                  [seg MOVE (wp 1 0 10) (wp 2 0 10)] (seg EXIT (wp 2 0 0) (wp 3 0 0)) []
                  eq_refl eq_refl (or_intror (conj eq_refl Hne)))
               (seg MOVE (wp 1 0 10) (wp 2 0 10)) [] eq_refl Hne).
Defined.

(** C4 counterexample: adjusting [enterOnly] twice differs from adjusting
    it once. *)
Lemma plateau_adjust_not_idempotent :
  modifySegmentsForPlateau noSceneFlag noIntersection
    (modifySegmentsForPlateau noSceneFlag noIntersection enterOnly plateau10 false) plateau10 false
  <> modifySegmentsForPlateau noSceneFlag noIntersection enterOnly plateau10 false.
Proof. vm_compute. discriminate. Qed.

Lemma plateau_rerun_adds_segment_witness :
  ~ (0 == 10)
  /\ (List.length (modifySegmentsForPlateau noSceneFlag noIntersection enterOnly plateau10 false)
      < List.length (modifySegmentsForPlateau noSceneFlag noIntersection
                       (modifySegmentsForPlateau noSceneFlag noIntersection enterOnly plateau10 false)
                       plateau10 false))%nat.
Proof.
  assert (Hne : ~ (0 == 10)) by (intros H; vm_compute in H; discriminate H).
  split; [exact Hne|].
  exact (plateau_rerun_adds_segment noSceneFlag noIntersection plateau10 false
           (seg ENTER (wp 0 0 0) (wp 1 0 0)) [] eq_refl eq_refl eq_refl eq_refl Hne).
Defined.

(** C2 (failing input): entering at 22, below the point halfway between
    floor 20 and top 30, the stairs send the token down: the MOVE after
    the ENTER is clamped to the floor 20, not raised to the top 30. *)
Theorem stairs_entry_below_halfway_goes_down :
  modifySegmentsForStairs noSceneFlag
    [ seg ENTER (wp 0 0 22) (wp 1 0 22); seg MOVE (wp 1 0 22) (wp 2 0 22) ] stairs20to30
  = [ seg ENTER (wp 0 0 22) (wp 1 0 22); seg MOVE (wp 1 0 20) (wp 2 0 20) ].
Proof. vm_compute. reflexivity. Qed.

(** With floor 0 (top 30, midpoint 15) the code gives the spec's examples:
    entry at 10 goes up to 30, entry at 20 goes down to 0. *)
Example stairs_floor0_examples :
  modifySegmentsForStairs noSceneFlag
    [ seg ENTER (wp 0 0 10) (wp 1 0 10); seg MOVE (wp 1 0 10) (wp 2 0 10) ]
    (setElevationBehavior STAIRS 30 0 false false)
  = [ seg ENTER (wp 0 0 10) (wp 1 0 10); seg MOVE (wp 1 0 30) (wp 2 0 30) ]
  /\ modifySegmentsForStairs noSceneFlag
    [ seg ENTER (wp 0 0 20) (wp 1 0 20); seg MOVE (wp 1 0 20) (wp 2 0 20) ]
    (setElevationBehavior STAIRS 30 0 false false)
  = [ seg ENTER (wp 0 0 20) (wp 1 0 20); seg MOVE (wp 1 0 0) (wp 2 0 0) ].
Proof. split; vm_compute; reflexivity. Qed.

(** ** The ramp evaluation *)

Section RampFacts.

Variable closestPointToSegment : Waypoint -> Point -> Point -> option Point.
Variable distanceBetween : Point -> Point -> jsnum.

Lemma almostEqual_compat (a a' v : Q) : a == a' -> almostEqual a v = almostEqual a' v.
Proof.
  intros H. unfold almostEqual. apply Bool.eq_true_iff_eq.
  rewrite !Qle_bool_iff. rewrite H. reflexivity.
Qed.

Lemma jsdiv_pos (p q : Q) : 0 < q -> jsdiv (JNum p) (JNum q) = JNum (p / q).
Proof.
  intros Hq. simpl. rewrite (Qeq_bool_false_of_lt 0 q Hq). reflexivity.
Qed.

Lemma clamp01_bounds (t : Q) : 0 <= Qmin (Qmax t 0) 1 /\ Qmin (Qmax t 0) 1 <= 1.
Proof.
  split.
  - apply Q.min_glb; [apply Q.le_max_r | discriminate].
  - apply Q.le_min_r.
Qed.

(** Dividing a distance by a zero distance and clamping it to [[0, 1]]
    gives NaN or [1]; the formula then returns NaN or the ceiling. *)
Lemma rampElevationFromDistances_zero_span (stepHeight : option Q) (floor ceiling : Q) (d : jsnum) :
  isDistance d ->
  rampElevationFromDistances stepHeight floor ceiling d (JNum 0) = JNaN
  \/ rampElevationFromDistances stepHeight floor ceiling d (JNum 0) = JNum ceiling.
Proof.
  intros [Hnan | [Hinf | [q [Hq Hq0]]]]; subst d.
  - left. unfold rampElevationFromDistances; cbn.
    destruct stepHeight as [h|]; [destruct (Qeq_bool h 0)|]; reflexivity.
  - right. reflexivity.
  - unfold rampElevationFromDistances.
    cbn [jsdiv]. replace (Qeq_bool 0 0) with true by reflexivity.
    destruct (Qeq_bool q 0) eqn:Hq0'.
    + left. cbn.
      destruct stepHeight as [h|]; [destruct (Qeq_bool h 0)|]; reflexivity.
    + assert (Hpos : Qlt_bool 0 q = true).
      { unfold Qlt_bool. apply negb_true_iff, Bool.not_true_iff_false.
        intros Hle. apply Qle_bool_iff in Hle.
        apply Bool.not_true_iff_false in Hq0'. apply Hq0', Qeq_bool_iff.
        apply Qle_antisym; assumption. }
      rewrite Hpos. right. reflexivity.
Qed.

(** The ramp evaluation on coincident min and max points: whatever
    point the host projection returns, the result is an error, NaN or the
    ramp's top elevation. *)
Lemma rampElevation_degenerate_cases (handler : RegionElevationHandler) (mm : MinMax)
    (waypoint : Waypoint) :
  handler.(minMax) = Some mm -> mm.(minPoint) = mm.(maxPoint) ->
  distanceBetween mm.(minPoint) mm.(minPoint) = JNum 0 ->
  (forall p, isDistance (distanceBetween mm.(minPoint) p)) ->
  rampElevation closestPointToSegment distanceBetween handler waypoint = None
  \/ rampElevation closestPointToSegment distanceBetween handler waypoint = Some JNaN
  \/ rampElevation closestPointToSegment distanceBetween handler waypoint = Some (JNum handler.(plateauElevation)).
Proof.
  intros Hmm Hsame Hzero Hdist.
  unfold rampElevation. rewrite Hmm.
  rewrite <- Hsame. rewrite Hzero.
  destruct (closestPointToSegment waypoint (minPoint mm) (minPoint mm)) as [p|].
  - right. destruct (rampElevationFromDistances_zero_span (rampStepHeight handler)
                       (rampFloor handler) (plateauElevation handler) _ (Hdist p)) as [H | H];
      rewrite H; [left | right]; reflexivity.
  - left. reflexivity.
Qed.

(** C7 (as the code does it): [#rampElevation] has no guard for a ramp
    whose min and max axis points coincide.  It still asks for the closest
    point on the zero-length segment and divides by the zero distance: the
    result is a propagated error, NaN, or the ramp's top elevation. *)
Theorem rampElevation_coincident_axis_points (handler : RegionElevationHandler) (mm : MinMax)
    (waypoint : Waypoint) :
  handler.(minMax) = Some mm -> mm.(minPoint) = mm.(maxPoint) ->
  distanceBetween mm.(minPoint) mm.(minPoint) = JNum 0 ->
  (forall p, isDistance (distanceBetween mm.(minPoint) p)) ->
  rampElevation closestPointToSegment distanceBetween handler waypoint = None
  \/ rampElevation closestPointToSegment distanceBetween handler waypoint = Some JNaN
  \/ rampElevation closestPointToSegment distanceBetween handler waypoint = Some (JNum handler.(plateauElevation)).
Proof.
  intros Hmm Hsame Hzero Hdist.
  exact (rampElevation_degenerate_cases handler mm waypoint Hmm Hsame Hzero Hdist).
Qed.

(** C5: the step size of a ramp is never read.  The evaluation reads
    [rampStepHeight], which the handler does not define, so two ramps that
    differ only in their step size give the same elevation everywhere, and
    a ramp from [0] to [10] with step size [3] returns [5] halfway up, which
    is not a step elevation [0 + 3k]. *)
Theorem ramp_step_size_ignored :
  (forall (handler : RegionElevationHandler) (s : option Q) (waypoint : Waypoint),
     rampElevation closestPointToSegment distanceBetween {| plateauElevation := handler.(plateauElevation); rampFloor := handler.(rampFloor);
                      rampStepSize := s; minMax := handler.(minMax) |} waypoint
     = rampElevation closestPointToSegment distanceBetween handler waypoint)
  /\ (forall closestPt : Point,
       closestPointToSegment (wp 5 0 0) {| px := 0; py := 0 |} {| px := 10; py := 0 |}
         = Some closestPt ->
       distanceBetween {| px := 0; py := 0 |} closestPt = JNum 5 ->
       distanceBetween {| px := 0; py := 0 |} {| px := 10; py := 0 |} = JNum 10 ->
       rampElevation closestPointToSegment distanceBetween ramp0to10step3 (wp 5 0 0) = Some (JNum 5)
       /\ forall k : Z, ~ (0 + inject_Z k * 3 == 5)).
Proof.
  split.
  - intros handler s waypoint. reflexivity.
  - intros closestPt Hc H5 H10. split.
    + unfold rampElevation, ramp0to10step3. cbn [minMax minPoint maxPoint].
      rewrite Hc, H5, H10. vm_compute. reflexivity.
    + intros k Hk. rewrite Qplus_0_l in Hk.
      unfold Qeq in Hk. simpl in Hk. lia.
Qed.

(** The stepped formula of [#rampElevation], were a step height [h > 0]
    read: each returned elevation is the floor, the ceiling, or
    [round(floor + k*h)] for an integer [k >= 0] with [k*h <= ceiling - floor];
    at the max end of the axis the ceiling itself is returned, whether or
    not [ceiling - floor] is a multiple of [h]. *)
Theorem rampElevation_stepped_values (h floor ceiling dClosest dMinMax : Q) :
  0 < h -> floor <= ceiling -> 0 <= dClosest -> 0 < dMinMax ->
  let e := rampElevationFromDistances (Some h) floor ceiling (JNum dClosest) (JNum dMinMax) in
  (e = JNum floor \/ e = JNum ceiling
   \/ exists k : Z, (0 <= k)%Z /\ inject_Z k * h <= ceiling - floor
                    /\ e = JNum (jsround (floor + inject_Z k * h)))
  /\ (dClosest == dMinMax -> e = JNum ceiling).
Proof.
  intros Hh Hfc HdC HdM e.
  set (t0 := Qmin (Qmax (dClosest / dMinMax) 0) 1).
  assert (Ht0 : jsclamp (jsdiv (JNum dClosest) (JNum dMinMax)) (JNum 0) (JNum 1) = JNum t0).
  { rewrite (jsdiv_pos _ _ HdM). reflexivity. }
  assert (He : e = if jsAlmostEqual (JNum t0) 0 then JNum floor
                   else if jsAlmostEqual (JNum t0) 1 then JNum ceiling
                   else jsroundN (jsadd (JNum floor)
                          (jsmul (jsfloorN (jsdiv (jsmul (JNum t0) (JNum (ceiling - floor))) (JNum h)))
                             (JNum h)))).
  { unfold e, rampElevationFromDistances. rewrite Ht0.
    rewrite (Qeq_bool_false_of_lt 0 h Hh). reflexivity. }
  split.
  - rewrite He.
    destruct (jsAlmostEqual (JNum t0) 0); [left; reflexivity|].
    destruct (jsAlmostEqual (JNum t0) 1); [right; left; reflexivity|].
    right; right.
    cbn [jsmul]. rewrite (jsdiv_pos _ _ Hh). cbn [jsfloorN jsmul jsadd jsroundN].
    destruct (clamp01_bounds (dClosest / dMinMax)) as [Hlo Hhi]. fold t0 in Hlo, Hhi.
    assert (Hdelta : 0 <= ceiling - floor).
    { apply (Qplus_le_l _ _ floor). ring_simplify. exact Hfc. }
    assert (Hq : 0 <= t0 * (ceiling - floor) / h).
    { apply Qmult_le_0_compat; [apply Qmult_le_0_compat; assumption|].
      apply Qinv_le_0_compat, Qlt_le_weak, Hh. }
    exists (Qfloor (t0 * (ceiling - floor) / h)).
    split; [|split; [|reflexivity]].
    + change 0%Z with (Qfloor 0). apply Qfloor_resp_le, Hq.
    + apply Qle_trans with (t0 * (ceiling - floor)).
      * apply Qle_trans with ((t0 * (ceiling - floor) / h) * h).
        { apply Qmult_le_compat_r; [apply Qfloor_le | apply Qlt_le_weak, Hh]. }
        rewrite Qmult_comm, Qmult_div_r; [apply Qle_refl|].
        intros Hz. rewrite Hz in Hh. apply (Qlt_irrefl 0), Hh.
      * apply Qle_trans with (1 * (ceiling - floor)).
        { apply Qmult_le_compat_r; assumption. }
        rewrite Qmult_1_l. apply Qle_refl.
  - intros Hend. rewrite He.
    assert (Hone : t0 == 1).
    { unfold t0. rewrite Hend.
      assert (Hdd : dMinMax / dMinMax == 1).
      { apply Qmult_inv_r. intros Hz. rewrite Hz in HdM. apply (Qlt_irrefl 0), HdM. }
      rewrite Hdd. reflexivity. }
    cbn [jsAlmostEqual]. rewrite !(almostEqual_compat _ _ _ Hone). reflexivity.
Qed.

End RampFacts.

Lemma distanceAlongAxis_isDistance (p q : Point) : isDistance (distanceAlongAxis p q).
Proof.
  right; right. eexists; split; [reflexivity|].
  rewrite Qred_correct.
  apply (Qplus_le_compat 0 _ 0 _); apply Qabs_nonneg.
Qed.

Lemma rampElevation_coincident_axis_points_witness :
  rampElevation closestPointToSegmentQ distanceAlongAxis degenerateRamp (wp 1 0 0) = None
  \/ rampElevation closestPointToSegmentQ distanceAlongAxis degenerateRamp (wp 1 0 0) = Some JNaN
  \/ rampElevation closestPointToSegmentQ distanceAlongAxis degenerateRamp (wp 1 0 0) = Some (JNum 10).
Proof.
  apply (rampElevation_coincident_axis_points closestPointToSegmentQ distanceAlongAxis degenerateRamp
           {| minPoint := {| px := 1; py := 0 |}; maxPoint := {| px := 1; py := 0 |} |} (wp 1 0 0)).
  - reflexivity.
  - reflexivity.
  - vm_compute. reflexivity.
  - intros p. apply distanceAlongAxis_isDistance.
Defined.

(** C7 fails: on the ramp [degenerateRamp] (min and max points both at
    [(1, 0)], floor [0], top [10]), no host projection and distance make
    the evaluation return the floor; with a projection that rejects the
    zero-length segment the evaluation raises. *)
Lemma degenerate_ramp_not_floor :
  (forall (cp : Waypoint -> Point -> Point -> option Point) (db : Point -> Point -> jsnum),
     db {| px := 1; py := 0 |} {| px := 1; py := 0 |} = JNum 0 ->
     (forall p, isDistance (db {| px := 1; py := 0 |} p)) ->
     rampElevation cp db degenerateRamp (wp 1 0 0) <> Some (JNum 0))
  /\ rampElevation closestPointToSegmentQ distanceAlongAxis degenerateRamp (wp 1 0 0) = None.
Proof.
  split; [|vm_compute; reflexivity].
  intros cp db Hzero Hdist Hfloor.
  destruct (rampElevation_degenerate_cases cp db degenerateRamp
              {| minPoint := {| px := 1; py := 0 |}; maxPoint := {| px := 1; py := 0 |} |} (wp 1 0 0)
              eq_refl eq_refl Hzero Hdist) as [H | [H | H]];
    rewrite Hfloor in H; [discriminate | discriminate |].
  injection H as H. unfold Qeq in H. simpl in H. lia.
Qed.

Lemma ramp_step_size_ignored_witness :
  rampElevation closestPointToSegmentQ distanceAlongAxis ramp0to10step3 (wp 5 0 0) = Some (JNum 5).
Proof.
  eapply (proj2 (ramp_step_size_ignored closestPointToSegmentQ distanceAlongAxis)).
  - vm_compute. reflexivity.
  - vm_compute. reflexivity.
  - vm_compute. reflexivity.
Defined.

(** ** Axis points *)

Section AxisFacts.

Variable rotatePoint : Z -> Point -> Point -> Point.
Variable isPositive : Polygon -> bool.

Lemma Qlt_bool_irrefl (a : Q) : Qlt_bool a a = false.
Proof.
  unfold Qlt_bool. apply negb_false_iff, Qle_bool_iff, Qle_refl.
Qed.

(** The loop never replaces a point: the candidate's [_dist2] is the
    current point's own. *)
Lemma regionAxisLoop_keeps (direction : Z) (center : Point) (polys : list Polygon) :
  forall mm : MinMax,
  (forall p, In p polys -> minMaxPolygonPointsAlongAxis rotatePoint p direction center <> None) ->
  regionAxisLoop rotatePoint direction center mm
    (distanceSquaredBetween mm.(minPoint) center) (distanceSquaredBetween mm.(maxPoint) center) polys
  = RMPoints mm.
Proof.
  induction polys as [|p polys IH]; intros mm Hdef; [reflexivity|].
  cbn [regionAxisLoop].
  destruct (minMaxPolygonPointsAlongAxis rotatePoint p direction center) as [res|] eqn:Hres.
  - rewrite !Qlt_bool_irrefl.
    destruct mm as [mn mx]. apply IH.
    intros q Hq. apply Hdef. right. exact Hq.
  - exfalso. apply (Hdef p); [left; reflexivity | exact Hres].
Qed.

(** C1 (as the code does it): on a region whose positive polygons all have
    axis points, [minMaxRegionPointsAlongAxis] returns the axis points of
    the first positive polygon, whatever the other polygons are: no point
    of a later polygon ever replaces them. *)
Theorem region_axis_keeps_first_polygon (region : Region) (direction : Z) (poly0 : Polygon)
    (polys : list Polygon) (mm : MinMax) :
  filter isPositive region.(polygons) = poly0 :: polys ->
  minMaxPolygonPointsAlongAxis rotatePoint poly0 direction region.(boundsCenter) = Some mm ->
  (forall p, In p polys -> minMaxPolygonPointsAlongAxis rotatePoint p direction region.(boundsCenter) <> None) ->
  minMaxRegionPointsAlongAxis rotatePoint isPositive region direction = RMPoints mm.
Proof.
  intros Hpolys H0 Hdef. unfold minMaxRegionPointsAlongAxis.
  rewrite Hpolys, H0. apply regionAxisLoop_keeps, Hdef.
Qed.

Lemma rem90_shift (d k : Z) : Z.rem d 90 <> 0%Z -> Z.rem (d + 360 * k) 90 <> 0%Z.
Proof.
  intros Hd Hdk. apply Hd.
  apply Z.rem_divide in Hdk; [|discriminate]. apply Z.rem_divide; [discriminate|].
  destruct Hdk as [q Hq]. exists (q - 4 * k)%Z. lia.
Qed.

(** Off the multiples of 90 the code rotates the bounds: the result in
    terms of the rotation angle [360 - direction]. *)
Lemma minMaxPolygon_rotate_branch (poly : Polygon) (direction : Z) (centroid : Point) :
  Z.rem direction 90 <> 0%Z ->
  minMaxPolygonPointsAlongAxis rotatePoint poly direction centroid =
  let bounds := getBounds {| points := map (rotatePoint (360 - direction) centroid) poly.(points) |} in
  Some {| minPoint := rotatePoint (- (360 - direction)) centroid
                        {| px := centroid.(px); py := bounds.(top) |};
          maxPoint := rotatePoint (- (360 - direction)) centroid
                        {| px := centroid.(px); py := bounds.(bottom) |} |}.
Proof.
  intros Hrem.
  assert (Hne : (360 - direction <> 0)%Z).
  { intros H. apply Hrem. replace direction with 360%Z by lia. reflexivity. }
  unfold minMaxPolygonPointsAlongAxis, rotatePolygon.
  apply Z.eqb_neq in Hrem. rewrite Hrem.
  assert (Hne' : (- (360 - direction) <> 0)%Z) by lia.
  apply Z.eqb_neq in Hne, Hne'. rewrite Hne, Hne'. reflexivity.
Qed.

(** C8 (as the code does it): on a multiple of 90 the direction must be
    one of [0, 90, 180, 270] (the [switch] has no other case and the
    result is [undefined]); off the multiples of 90 every direction gives
    axis points, and [d] and [d + 360k] give the same ones when the point
    rotation depends on its angle only modulo 360. *)
Theorem minMaxPolygon_direction_periodicity (poly : Polygon) (d : Z) (centroid : Point) :
  (Z.rem d 90 = 0%Z ->
   (minMaxPolygonPointsAlongAxis rotatePoint poly d centroid <> None <->
    (d = 0 \/ d = 90 \/ d = 180 \/ d = 270)%Z))
  /\ (Z.rem d 90 <> 0%Z -> forall k : Z,
        minMaxPolygonPointsAlongAxis rotatePoint poly (d + 360 * k) centroid <> None
        /\ ((forall a k' c p, rotatePoint (a + 360 * k') c p = rotatePoint a c p) ->
            minMaxPolygonPointsAlongAxis rotatePoint poly (d + 360 * k) centroid
            = minMaxPolygonPointsAlongAxis rotatePoint poly d centroid)).
Proof.
  split.
  - intros Hrem. unfold minMaxPolygonPointsAlongAxis.
    rewrite Hrem. cbn [Z.eqb negb].
    destruct (Z.eqb_spec d 0); [split; [auto | discriminate]|].
    destruct (Z.eqb_spec d 90); [split; [auto | discriminate]|].
    destruct (Z.eqb_spec d 180); [split; [auto | discriminate]|].
    destruct (Z.eqb_spec d 270); [split; [auto | discriminate]|].
    split; [intros H; exfalso; apply H; reflexivity | lia].
  - intros Hrem k.
    pose proof (rem90_shift d k Hrem) as Hremk.
    rewrite (minMaxPolygon_rotate_branch poly (d + 360 * k) centroid Hremk).
    split; [discriminate|].
    intros Hper. rewrite (minMaxPolygon_rotate_branch poly d centroid Hrem). cbv zeta.
    replace (360 - (d + 360 * k))%Z with (360 - d + 360 * - k)%Z by lia.
    replace (- (360 - d + 360 * - k))%Z with (- (360 - d) + 360 * k)%Z by lia.
    rewrite !Hper.
    assert (Hmap : map (rotatePoint (360 - d + 360 * - k) centroid) poly.(points)
                   = map (rotatePoint (360 - d) centroid) poly.(points)).
    { apply map_ext. intros p. apply Hper. }
    rewrite Hmap. reflexivity.
Qed.

End AxisFacts.

Lemma region_axis_keeps_first_polygon_witness :
  minMaxRegionPointsAlongAxis noRotation allPositive twoSquares 0
    = RMPoints {| minPoint := pt 1 0; maxPoint := pt 1 2 |}
  /\ minMaxRegionPointsFarther noRotation allPositive twoSquares 0
    = RMPoints {| minPoint := pt 1 0; maxPoint := pt 1 10 |}.
Proof.
  split; [|vm_compute; reflexivity].
  apply (region_axis_keeps_first_polygon noRotation allPositive twoSquares 0 squareLow [squareHigh]).
  - reflexivity.
  - vm_compute. reflexivity.
  - intros p [<- | []]. vm_compute. discriminate.
Defined.

(** C8 fails: a direction of [0] gives the axis points of a square, while
    [0 + 360] gives [undefined] (the rotation is not used on either path). *)
Lemma direction_360_undefined :
  minMaxPolygonPointsAlongAxis noRotation squareLow 0 (pt 1 1)
    = Some {| minPoint := pt 1 0; maxPoint := pt 1 2 |}
  /\ minMaxPolygonPointsAlongAxis noRotation squareLow (0 + 360 * 1) (pt 1 1) = None.
Proof.
  split; reflexivity.
Qed.

(** ** The plateau segment intersection *)

Section PlateauIntersectionFacts.

Variable nearestGroundElevation : Waypoint -> Q.
Variable planeIntersection : Waypoint -> Waypoint -> option Waypoint.

(** C9: on a vertical move ([a] and [b] at the same [x, y]) the
    intersection is [a] raised to the higher of the two nearest-ground
    elevations when that elevation lies between [a.elevation] and
    [b.elevation] (bounds included, in either order), and [null] otherwise. *)
Theorem plateauSegmentIntersection_vertical (a b : Waypoint) :
  a.(x) == b.(x) -> a.(y) == b.(y) ->
  let e := Qmax (nearestGroundElevation a) (nearestGroundElevation b) in
  (Qmin a.(elevation) b.(elevation) <= e <= Qmax a.(elevation) b.(elevation) ->
   plateauSegmentIntersection nearestGroundElevation planeIntersection a b = Some (withElevation a e))
  /\ (~ (Qmin a.(elevation) b.(elevation) <= e <= Qmax a.(elevation) b.(elevation)) ->
      plateauSegmentIntersection nearestGroundElevation planeIntersection a b = None).
Proof.
  intros Hx Hy e.
  assert (Hxy : regionWaypointsXYEqual a b = true).
  { unfold regionWaypointsXYEqual. apply andb_true_intro. split; apply Qeq_bool_iff; assumption. }
  unfold plateauSegmentIntersection. rewrite Hxy. fold e.
  unfold between.
  split.
  - intros [Hlo Hhi].
    apply Qle_bool_iff in Hlo. apply Qle_bool_iff in Hhi. rewrite Hlo, Hhi. reflexivity.
  - intros Hout.
    destruct (Qle_bool (Qmin (elevation a) (elevation b)) e) eqn:Hlo; [|reflexivity].
    destruct (Qle_bool e (Qmax (elevation a) (elevation b))) eqn:Hhi; [|reflexivity].
    exfalso. apply Hout. split; apply Qle_bool_iff; assumption.
Qed.

End PlateauIntersectionFacts.

Lemma plateauSegmentIntersection_vertical_witness :
  plateauSegmentIntersection (fun _ => 5) (fun _ _ => None) (wp 0 0 0) (wp 0 0 10)
    = Some (withElevation (wp 0 0 0) (Qmax 5 5))
  /\ plateauSegmentIntersection (fun _ => 5) (fun _ _ => None) (wp 0 0 6) (wp 0 0 10) = None.
Proof.
  split.
  - apply (plateauSegmentIntersection_vertical (fun _ => 5) (fun _ _ => None) (wp 0 0 0) (wp 0 0 10));
      [reflexivity | reflexivity | vm_compute; split; discriminate].
  - apply (plateauSegmentIntersection_vertical (fun _ => 5) (fun _ _ => None) (wp 0 0 6) (wp 0 0 10));
      [reflexivity | reflexivity |].
    vm_compute. intros [H _]. apply H. reflexivity.
Defined.

(** * More of the code *)

(** ** The hatch direction and the region mesh *)

Lemma Qabs_unit_split (t : Q) : 0 <= t -> t <= 1 -> Qabs t + Qabs (1 - t) == 1.
Proof.
  intros H0 H1. rewrite (Qabs_pos t H0), (Qabs_pos (1 - t)) by lra. ring.
Qed.

Lemma Qle_bool_false_lt (a b : Q) : Qle_bool a b = false -> b < a.
Proof.
  intros H. apply Qnot_le_lt. intros Hle. apply Qle_bool_iff in Hle. congruence.
Qed.

Lemma hatch_unit_norm (direction : Q) :
  0 <= direction -> direction <= 360 ->
  exists h, calculateHatchXY direction = Some h /\ Qabs h.(hatchX) + Qabs h.(hatchY) == 1.
Proof.
  intros H0 H360. unfold calculateHatchXY.
  destruct (Qle_bool direction 90) eqn:H90;
    [apply Qle_bool_iff in H90 | apply Qle_bool_false_lt in H90].
  { eexists; split; [reflexivity|]. cbn [hatchX hatchY].
    change (direction / 90) with (direction * (1#90)).
    rewrite Qabs_opp. apply Qabs_unit_split; lra. }
  destruct (Qle_bool direction 180) eqn:H180;
    [apply Qle_bool_iff in H180 | apply Qle_bool_false_lt in H180].
  { eexists; split; [reflexivity|]. cbn [hatchX hatchY].
    change ((direction - 90) / 90) with ((direction - 90) * (1#90)).
    rewrite Qplus_comm. apply Qabs_unit_split; lra. }
  destruct (Qle_bool direction 270) eqn:H270;
    [apply Qle_bool_iff in H270 | apply Qle_bool_false_lt in H270].
  { eexists; split; [reflexivity|]. cbn [hatchX hatchY].
    change ((direction - 180) / 90) with ((direction - 180) * (1#90)).
    rewrite <- Qabs_opp with (x := (direction - 180) * (1 # 90) - 1).
    setoid_replace (- ((direction - 180) * (1 # 90) - 1)) with (1 - (direction - 180) * (1 # 90))
      by ring.
    apply Qabs_unit_split; lra. }
  destruct (Qle_bool direction 360) eqn:H360';
    [apply Qle_bool_iff in H360' | apply Qle_bool_false_lt in H360'; lra].
  eexists; split; [reflexivity|]. cbn [hatchX hatchY].
  change ((direction - 270) / 90) with ((direction - 270) * (1#90)).
  rewrite Qabs_opp, Qplus_comm.
  rewrite <- Qabs_opp with (x := (direction - 270) * (1 # 90) - 1).
  setoid_replace (- ((direction - 270) * (1 # 90) - 1)) with (1 - (direction - 270) * (1 # 90))
    by ring.
  apply Qabs_unit_split; lra.
Qed.

(** For a direction in [[0, 360]], [calculateHatchXY] returns a hatch
    vector of unit length in the L1 norm: [|hatchX| + |hatchY| = 1]. *)
Theorem calculateHatchXY_unit (direction : Q) :
  0 <= direction -> direction <= 360 ->
  exists h, calculateHatchXY direction = Some h /\ Qabs h.(hatchX) + Qabs h.(hatchY) == 1.
Proof. exact (hatch_unit_norm direction). Qed.

Lemma calculateHatchXY_unit_witness :
  exists h, calculateHatchXY 45 = Some h /\ Qabs h.(hatchX) + Qabs h.(hatchY) == 1.
Proof.
  apply (calculateHatchXY_unit 45); discriminate.
Defined.

(** Turning the ramp by half a turn reverses the hatch vector, for a
    direction in [(0, 180]]; at [0] it does not: directions [0] and [180]
    give the same vector [(0, 1)]. *)
Theorem calculateHatchXY_half_turn (direction : Q) :
  0 < direction -> direction <= 180 ->
  exists h h', calculateHatchXY direction = Some h /\ calculateHatchXY (direction + 180) = Some h'
    /\ h'.(hatchX) == - h.(hatchX) /\ h'.(hatchY) == - h.(hatchY).
Proof.
  intros H0 H180. unfold calculateHatchXY.
  destruct (Qle_bool direction 90) eqn:H90;
    [apply Qle_bool_iff in H90 | apply Qle_bool_false_lt in H90].
  - assert (Ha : Qle_bool (direction + 180) 90 = false)
      by (apply Bool.not_true_iff_false; rewrite Qle_bool_iff; lra).
    assert (Hb : Qle_bool (direction + 180) 180 = false)
      by (apply Bool.not_true_iff_false; rewrite Qle_bool_iff; lra).
    assert (Hc : Qle_bool (direction + 180) 270 = true) by (apply Qle_bool_iff; lra).
    rewrite Ha, Hb, Hc.
    do 2 eexists; split; [reflexivity|]; split; [reflexivity|]; cbn [hatchX hatchY].
    change ((direction + 180 - 180) / 90) with ((direction + 180 - 180) * (1#90)).
    change (direction / 90) with (direction * (1#90)).
    split; ring.
  - assert (Hle : Qle_bool direction 180 = true) by (apply Qle_bool_iff; lra).
    rewrite Hle.
    assert (Ha : Qle_bool (direction + 180) 90 = false)
      by (apply Bool.not_true_iff_false; rewrite Qle_bool_iff; lra).
    assert (Hb : Qle_bool (direction + 180) 180 = false)
      by (apply Bool.not_true_iff_false; rewrite Qle_bool_iff; lra).
    assert (Hc : Qle_bool (direction + 180) 270 = false)
      by (apply Bool.not_true_iff_false; rewrite Qle_bool_iff; lra).
    assert (Hd : Qle_bool (direction + 180) 360 = true) by (apply Qle_bool_iff; lra).
    rewrite Ha, Hb, Hc, Hd.
    do 2 eexists; split; [reflexivity|]; split; [reflexivity|]; cbn [hatchX hatchY].
    change ((direction + 180 - 270) / 90) with ((direction + 180 - 270) * (1#90)).
    change ((direction - 90) / 90) with ((direction - 90) * (1#90)).
    split; ring.
Qed.

Lemma calculateHatchXY_half_turn_witness :
  (exists h h', calculateHatchXY 30 = Some h /\ calculateHatchXY (30 + 180) = Some h'
    /\ h'.(hatchX) == - h.(hatchX) /\ h'.(hatchY) == - h.(hatchY))
  /\ (exists h h', calculateHatchXY 0 = Some h /\ calculateHatchXY 180 = Some h'
      /\ h'.(hatchX) == h.(hatchX) /\ h'.(hatchY) == h.(hatchY)).
Proof.
  split.
  - apply (calculateHatchXY_half_turn 30); vm_compute; first [reflexivity | discriminate].
  - do 2 eexists. split; [reflexivity|]. split; [reflexivity|]. split; vm_compute; reflexivity.
Defined.

Lemma find_first_active (pre post : list Behavior) (b : Behavior) :
  Forall (fun b' => isActiveSetElevation b' = false) pre -> isActiveSetElevation b = true ->
  find isActiveSetElevation (pre ++ b :: post) = Some b.
Proof.
  induction 1 as [|b' pre Hb' Hpre IH]; intros Hb; simpl.
  - rewrite Hb. reflexivity.
  - rewrite Hb'. apply IH, Hb.
Qed.

Lemma find_none_inactive (behaviors : list Behavior) :
  Forall (fun b => b.(behavior_type) <> setElevationType \/ b.(disabled) = true) behaviors ->
  find isActiveSetElevation behaviors = None.
Proof.
  induction 1 as [|b bs Hb Hbs IH]; simpl; [reflexivity|].
  assert (Hoff : isActiveSetElevation b = false).
  { unfold isActiveSetElevation. destruct Hb as [Hb | Hb].
    - apply String.eqb_neq in Hb. rewrite Hb. reflexivity.
    - rewrite Hb, andb_false_r. reflexivity. }
  rewrite Hoff. exact IH.
Qed.

(** When the region has no enabled [setElevation] behavior (say the last
    one was just disabled or deleted), [_refreshTerrainMapperMesh] only
    writes [hatchThickness]: the border, the hatch direction, the inset
    and the inset border thickness of the mesh keep their previous values. *)
Theorem refresh_without_behavior_keeps_uniforms (rampDirection : Behavior -> Q) (size : Q)
    (bounds : Rectangle) (behaviors : list Behavior) (u : MeshUniforms) :
  Forall (fun b => b.(behavior_type) <> setElevationType \/ b.(disabled) = true) behaviors ->
  exists u', refreshTerrainMapperMesh rampDirection size bounds behaviors (Some u) = RefreshDone (Some u')
    /\ u'.(u_hatchThickness) = size / 10 /\ u'.(u_border) = u.(u_border)
    /\ u'.(u_hatchX) = u.(u_hatchX) /\ u'.(u_hatchY) = u.(u_hatchY)
    /\ u'.(u_insetPercentage) = u.(u_insetPercentage)
    /\ u'.(u_insetBorderThickness) = u.(u_insetBorderThickness).
Proof.
  intros Hnone. unfold refreshTerrainMapperMesh. rewrite (find_none_inactive _ Hnone).
  eexists. split; [reflexivity|]. repeat split.
Qed.

Lemma refresh_without_behavior_keeps_uniforms_witness :
  exists u', refreshTerrainMapperMesh (fun _ => 0) 100 {| left := 0; top := 0; right := 1; bottom := 1 |}
      [setElevationBehavior PLATEAU 10 0 true true]
      (Some {| u_hatchThickness := 0; u_border := [0; 0; 5; 5]; u_hatchX := 1; u_hatchY := 1;
               u_insetPercentage := 1#10; u_insetBorderThickness := 10 |}) = RefreshDone (Some u')
    /\ u'.(u_hatchThickness) = 100 / 10 /\ u'.(u_border) = [0; 0; 5; 5]
    /\ u'.(u_hatchX) = 1 /\ u'.(u_hatchY) = 1
    /\ u'.(u_insetPercentage) = 1#10 /\ u'.(u_insetBorderThickness) = 10.
Proof.
  apply (refresh_without_behavior_keeps_uniforms (fun _ => 0) 100
           {| left := 0; top := 0; right := 1; bottom := 1 |} [setElevationBehavior PLATEAU 10 0 true true]).
  constructor; [right; reflexivity | constructor].
Defined.

(** When the first enabled [setElevation] behavior of the region is a
    ramp, [_refreshTerrainMapperMesh] throws a [TypeError] for a ramp
    direction above 360, after writing only [hatchThickness]; for a
    direction in [[0, 360]] it writes a hatch vector of L1 length 1 and an
    inset of [0.1]. *)
Theorem refresh_ramp_hatch (rampDirection : Behavior -> Q) (size : Q) (bounds : Rectangle)
    (pre post : list Behavior) (b : Behavior) (u : MeshUniforms) :
  Forall (fun b' => isActiveSetElevation b' = false) pre ->
  b.(behavior_type) = setElevationType -> b.(disabled) = false -> b.(system).(algorithm) = RAMP ->
  (360 < rampDirection b ->
   refreshTerrainMapperMesh rampDirection size bounds (pre ++ b :: post) (Some u)
   = RefreshTypeError (setHatchThickness u (size / 10)))
  /\ (0 <= rampDirection b -> rampDirection b <= 360 ->
      exists u', refreshTerrainMapperMesh rampDirection size bounds (pre ++ b :: post) (Some u)
                 = RefreshDone (Some u')
        /\ Qabs u'.(u_hatchX) + Qabs u'.(u_hatchY) == 1 /\ u'.(u_insetPercentage) = 1#10
        /\ u'.(u_hatchThickness) = size / 10).
Proof.
  intros Hpre Ht Hd Ha.
  assert (Hb : isActiveSetElevation b = true)
    by (unfold isActiveSetElevation; rewrite Ht, Hd, String.eqb_refl; reflexivity).
  unfold refreshTerrainMapperMesh. rewrite (find_first_active pre post b Hpre Hb), Ha.
  split.
  - intros Hgt. unfold calculateHatchXY.
    assert (Hf : forall c, c <= 360 -> Qle_bool (rampDirection b) c = false).
    { intros c Hc. apply Bool.not_true_iff_false. rewrite Qle_bool_iff. lra. }
    rewrite !Hf by lra. reflexivity.
  - intros H0 H360.
    destruct (hatch_unit_norm (rampDirection b) H0 H360) as [h [Hh Hnorm]].
    rewrite Hh. eexists. split; [reflexivity|]. cbn. repeat split. exact Hnorm.
Qed.

Lemma refresh_ramp_hatch_witness :
  refreshTerrainMapperMesh (fun _ => 400) 100 {| left := 0; top := 0; right := 1; bottom := 1 |}
    [setElevationBehavior RAMP 10 0 true false]
    (Some {| u_hatchThickness := 0; u_border := []; u_hatchX := 1; u_hatchY := 1;
             u_insetPercentage := 0; u_insetBorderThickness := 0 |})
  = RefreshTypeError {| u_hatchThickness := 100 / 10; u_border := []; u_hatchX := 1; u_hatchY := 1;
                        u_insetPercentage := 0; u_insetBorderThickness := 0 |}.
Proof.
  refine (proj1 (refresh_ramp_hatch (fun _ => 400) 100 {| left := 0; top := 0; right := 1; bottom := 1 |}
           [] [] (setElevationBehavior RAMP 10 0 true false) _ _ _ _ _) _).
  - constructor.
  - reflexivity.
  - reflexivity.
  - reflexivity.
  - vm_compute. reflexivity.
Defined.

(** ** Segmentizing a movement *)

Section SegmentizeFacts.

Variable sceneBackgroundElevation : option Q.
Variable systemPlateauSegmentIntersection : BehaviorSystem -> Waypoint -> Waypoint -> option Waypoint.
Variable systemPlateauElevation : BehaviorSystem -> Waypoint -> Q.

Local Abbreviation plateau :=
  (modifySegmentsForPlateau sceneBackgroundElevation systemPlateauSegmentIntersection).
Local Abbreviation stairs := (modifySegmentsForStairs sceneBackgroundElevation).
Local Abbreviation ramp :=
  (modifySegmentsForRamp sceneBackgroundElevation systemPlateauSegmentIntersection systemPlateauElevation).
Local Abbreviation segmentize :=
  (segmentizeMovement sceneBackgroundElevation systemPlateauSegmentIntersection systemPlateauElevation).
Local Abbreviation adjust :=
  (adjustForBehavior sceneBackgroundElevation systemPlateauSegmentIntersection systemPlateauElevation).
Local Abbreviation adjusterFor :=
  (adjusterFor sceneBackgroundElevation systemPlateauSegmentIntersection systemPlateauElevation).

(** The stairs scan never drops a segment. *)
Lemma stairsLoop_length (sys : BehaviorSystem) (midE : Q) (todo : list Segment) :
  forall entered up targetElevation visited,
  (List.length visited + List.length todo
   <= List.length (stairsLoop sceneBackgroundElevation sys midE entered up targetElevation visited todo))%nat.
Proof.
  induction todo as [|segment rest IH]; intros entered up targetElevation visited.
  - simpl. rewrite length_rev. lia.
  - cbn [stairsLoop]. destruct (type segment).
    + specialize (IH true (Qle_bool (elevation (from segment)) midE)
                    (if Qle_bool (elevation (from segment)) midE then sys_elevation sys else sys_floor sys)
                    (segment :: visited)). simpl in *. lia.
    + destruct (negb entered).
      * specialize (IH entered up targetElevation (segment :: visited)). simpl in *. lia.
      * match goal with |- context [stairsLoop _ _ _ _ _ _ ?v rest] =>
          specialize (IH entered up targetElevation v) end. simpl in *. lia.
    + destruct (negb _).
      { specialize (IH entered up targetElevation (segment :: visited)). simpl in *. lia. }
      destruct (negb (reset sys)).
      { specialize (IH false up targetElevation (segment :: visited)). simpl in *. lia. }
      destruct (insertVerticalMoveToTerrainFloor_extends visited segment
                  (terrainFloor sceneBackgroundElevation)) as [added [Hadd Hlen]].
      rewrite Hadd. specialize (IH false up targetElevation (added ++ visited)).
      rewrite length_app in IH. simpl. lia.
Qed.

Lemma retargetLastTo_length (visited : list Segment) (e : Q) :
  List.length (retargetLastTo visited e) = List.length visited.
Proof. destruct visited; reflexivity. Qed.

(** The ramp scan never drops a segment. *)
Lemma rampLoop_length (sys : BehaviorSystem) (freefall : bool) (fuel : nat) :
  forall entered shared visited todo,
  (List.length visited + List.length todo
   <= List.length (rampLoop sceneBackgroundElevation systemPlateauSegmentIntersection systemPlateauElevation
                     sys freefall fuel entered shared visited todo))%nat.
Proof.
  induction fuel as [|fuel IH]; intros entered shared visited todo.
  - simpl. rewrite length_app, length_rev. lia.
  - destruct todo as [|segment rest].
    + simpl. rewrite length_rev. lia.
    + cbn [rampLoop].
      destruct (insertVerticalMoveToTerrainFloor_extends visited segment
                  (terrainFloor sceneBackgroundElevation)) as [added [Hadd Hlen]].
      rewrite Hadd.
      destruct (type segment);
        repeat match goal with
               | |- context [if ?c then _ else _] => destruct c
               | |- context [match ?m with Some _ => _ | None => _ end] => destruct m
               end;
        (eapply Nat.le_trans; [|apply IH]); simpl; rewrite ?length_app, ?retargetLastTo_length;
        simpl; lia.
Qed.

Lemma plateau_length (segments : list Segment) (behavior : Behavior) (freefall : bool) :
  (List.length segments <= List.length (plateau segments behavior freefall))%nat.
Proof.
  unfold modifySegmentsForPlateau. destruct (skipsBehavior _ _); [lia|].
  apply (plateauLoop_length sceneBackgroundElevation systemPlateauSegmentIntersection _ _ _ false [] segments).
Qed.

Lemma stairs_length (segments : list Segment) (behavior : Behavior) :
  (List.length segments <= List.length (stairs segments behavior))%nat.
Proof.
  unfold modifySegmentsForStairs. destruct (skipsBehavior _ _); [lia|].
  apply (stairsLoop_length _ _ segments false true _ []).
Qed.

Lemma ramp_length (segments : list Segment) (behavior : Behavior) (freefall : bool) :
  (List.length segments <= List.length (ramp segments behavior freefall))%nat.
Proof.
  unfold modifySegmentsForRamp. destruct (skipsBehavior _ _); [lia|].
  apply (rampLoop_length _ _ _ false false [] segments).
Qed.

Lemma adjust_length (freefall : bool) (segments : list Segment) (behavior : Behavior) :
  (List.length segments <= List.length (adjust freefall segments behavior))%nat.
Proof.
  unfold adjustForBehavior.
  eapply Nat.le_trans; [apply plateau_length|].
  eapply Nat.le_trans; [apply stairs_length|].
  apply ramp_length.
Qed.

(** [segmentizeMovement] never removes a segment that the wrapped Foundry
    method returned: the adjusted list is at least as long. *)
Theorem segmentizeMovement_never_shortens (segments : list Segment) (behaviors : list Behavior)
    (freefall : bool) :
  (List.length segments <= List.length (segmentize segments behaviors freefall))%nat.
Proof.
  unfold segmentizeMovement. destruct segments as [|s ss]; [lia|].
  generalize (s :: ss) as l. induction behaviors as [|b bs IH]; intros l; simpl; [lia|].
  eapply Nat.le_trans; [apply (adjust_length freefall l b)|]. apply IH.
Qed.

Lemma skips_other_algorithm (behavior : Behavior) (choice : Algorithm) :
  behavior.(system).(algorithm) <> choice -> skipsBehavior behavior choice = true.
Proof. intros H. apply skipsBehavior_of_guard. right; right; exact H. Qed.

Lemma adjust_dispatch (freefall : bool) (segments : list Segment) (behavior : Behavior) :
  adjust freefall segments behavior = adjusterFor freefall segments behavior.
Proof.
  unfold adjustForBehavior, adjusterFor, modifySegmentsForPlateau, modifySegmentsForStairs,
    modifySegmentsForRamp.
  destruct (algorithm (system behavior)) eqn:Ha;
    rewrite ?(skips_other_algorithm behavior PLATEAU), ?(skips_other_algorithm behavior STAIRS),
      ?(skips_other_algorithm behavior RAMP) by (rewrite Ha; discriminate); reflexivity.
Qed.

Lemma adjusterFor_nil (freefall : bool) (behavior : Behavior) : adjusterFor freefall [] behavior = [].
Proof.
  unfold adjusterFor, modifySegmentsForPlateau, modifySegmentsForStairs, modifySegmentsForRamp.
  destruct (algorithm _); [reflexivity| | |]; destruct (skipsBehavior _ _); reflexivity.
Qed.

(** [segmentizeMovement] runs, for each behavior of the region in order,
    the one adjuster that matches the behavior's algorithm (plateau, stairs
    or ramp) on the segments left by the previous behaviors; a behavior with
    the algorithm NONE changes nothing. *)
Theorem segmentizeMovement_dispatch (segments : list Segment) (behaviors : list Behavior)
    (freefall : bool) :
  segmentize segments behaviors freefall = fold_left (adjusterFor freefall) behaviors segments.
Proof.
  unfold segmentizeMovement. destruct segments as [|s ss].
  - induction behaviors as [|b bs IH]; simpl; [reflexivity|]. rewrite adjusterFor_nil. exact IH.
  - generalize (s :: ss) as l. induction behaviors as [|b bs IH]; intros l; simpl; [reflexivity|].
    rewrite adjust_dispatch. apply IH.
Qed.

(** A region whose behaviors are all other types, disabled, or set to the
    algorithm NONE leaves the movement segments unchanged. *)
Theorem segmentizeMovement_inactive_noop (segments : list Segment) (behaviors : list Behavior)
    (freefall : bool) :
  Forall (fun b => b.(behavior_type) <> setElevationType \/ b.(disabled) = true
                   \/ b.(system).(algorithm) = NONE) behaviors ->
  segmentize segments behaviors freefall = segments.
Proof.
  intros Hall. unfold segmentizeMovement. destruct segments as [|s ss]; [reflexivity|].
  generalize (s :: ss) as l. induction Hall as [|b bs Hb Hbs IH]; intros l; simpl; [reflexivity|].
  assert (Hskip : forall choice, choice <> NONE -> skipsBehavior b choice = true).
  { intros choice Hc. apply skipsBehavior_of_guard.
    destruct Hb as [Hb | [Hb | Hb]]; [left | right; left | right; right]; try exact Hb.
    rewrite Hb. intros H; apply Hc; symmetry; exact H. }
  unfold adjustForBehavior, modifySegmentsForPlateau, modifySegmentsForStairs, modifySegmentsForRamp.
  rewrite !Hskip by discriminate. apply IH.
Qed.

End SegmentizeFacts.

Lemma segmentizeMovement_inactive_noop_witness :
  segmentizeMovement noSceneFlag noIntersection ownElevation walkAcross
    [setElevationBehavior PLATEAU 10 0 true true; setElevationBehavior NONE 10 0 true false] false
  = walkAcross.
Proof.
  apply segmentizeMovement_inactive_noop.
  constructor; [right; left; reflexivity|].
  constructor; [right; right; reflexivity | constructor].
Defined.

(** ** Inside a region *)

Section InsideFacts.

Ltac grow_visited IH :=
  first [ eapply (prefix_extend _ _ [_]); apply IH
        | eapply (prefix_extend _ _ [_; _]); apply IH ].

Ltac grow_insert IH :=
  let added := fresh "added" in
  let Hadd := fresh "Hadd" in
  match goal with
  | |- context [insertVerticalMoveToTerrainFloor ?v ?s ?f] =>
      destruct (insertVerticalMoveToTerrainFloor_extends v s f) as [added [Hadd _]]
  end;
  rewrite Hadd; apply (prefix_extend _ _ added); apply IH.

Variable sceneBackgroundElevation : option Q.
Variable systemPlateauSegmentIntersection : BehaviorSystem -> Waypoint -> Waypoint -> option Waypoint.
Variable systemPlateauElevation : BehaviorSystem -> Waypoint -> Q.


Lemma plateauLoop_moves (sys : BehaviorSystem) (freefall : bool) (ms : list Segment) :
  Forall (fun s => type s = MOVE) ms ->
  forall fuel visited rest, (List.length ms <= fuel)%nat ->
  plateauLoop sceneBackgroundElevation systemPlateauSegmentIntersection sys freefall fuel true visited (ms ++ rest)
  = plateauLoop sceneBackgroundElevation systemPlateauSegmentIntersection sys freefall (fuel - List.length ms) true
      (rev (map (plateauMoveElevations sys.(sys_elevation)) ms) ++ visited) rest.
Proof.
  induction 1 as [|m ms Hm Hms IH]; intros fuel visited rest Hfuel.
  - simpl. rewrite Nat.sub_0_r. reflexivity.
  - destruct fuel as [|fuel]; [simpl in Hfuel; lia|].
    simpl app. cbn [plateauLoop]. rewrite Hm.
    rewrite IH by (simpl in Hfuel; lia).
    simpl. rewrite <- app_assoc. reflexivity.
Qed.

Lemma stairsLoop_moves (sys : BehaviorSystem) (midE : Q) (up : bool) (targetElevation : Q)
    (ms : list Segment) :
  Forall (fun s => type s = MOVE) ms ->
  forall visited rest,
  stairsLoop sceneBackgroundElevation sys midE true up targetElevation visited (ms ++ rest)
  = stairsLoop sceneBackgroundElevation sys midE true up targetElevation
      (rev (map (stairsMoveElevations up targetElevation) ms) ++ visited) rest.
Proof.
  induction 1 as [|m ms Hm Hms IH]; intros visited rest; [reflexivity|].
  simpl app. cbn [stairsLoop]. rewrite Hm. simpl negb. cbv iota.
  rewrite IH. simpl. rewrite <- app_assoc. reflexivity.
Qed.

Lemma rampLoop_moves (sys : BehaviorSystem) (freefall : bool) (ms : list Segment) :
  Forall (fun s => type s = MOVE) ms ->
  forall fuel visited rest, (List.length ms <= fuel)%nat ->
  rampLoop sceneBackgroundElevation systemPlateauSegmentIntersection systemPlateauElevation sys freefall fuel true false visited (ms ++ rest)
  = rampLoop sceneBackgroundElevation systemPlateauSegmentIntersection systemPlateauElevation sys freefall (fuel - List.length ms) true false
      (rev (map (rampMoveElevations (systemPlateauElevation sys)) ms) ++ visited) rest.
Proof.
  induction 1 as [|m ms Hm Hms IH]; intros fuel visited rest Hfuel.
  - simpl. rewrite Nat.sub_0_r. reflexivity.
  - destruct fuel as [|fuel]; [simpl in Hfuel; lia|].
    simpl app. cbn [rampLoop]. rewrite Hm. simpl orb.
    rewrite IH by (simpl in Hfuel; lia).
    simpl. rewrite <- app_assoc. reflexivity.
Qed.

Lemma prefix_tl (out visited : list Segment) :
  (exists tail, out = rev visited ++ tail) -> exists tail, out = rev (tl visited) ++ tail.
Proof.
  intros [tail Ht]. destruct visited as [|v vs]; [exists tail; exact Ht|].
  exists ([v] ++ tail). rewrite Ht. simpl. rewrite <- app_assoc. reflexivity.
Qed.

(** The stairs scan never rewrites a segment it has already visited. *)
Lemma stairsLoop_prefix (sys : BehaviorSystem) (midE : Q) (todo : list Segment) :
  forall entered up targetElevation visited,
  exists tail, stairsLoop sceneBackgroundElevation sys midE entered up targetElevation visited todo = rev visited ++ tail.
Proof.
  induction todo as [|segment rest IH]; intros entered up targetElevation visited.
  - exists []. rewrite app_nil_r. reflexivity.
  - cbn [stairsLoop]. destruct (type segment).
    + grow_visited IH.
    + destruct (negb entered); grow_visited IH.
    + destruct (negb _); [grow_visited IH|].
      destruct (negb (reset sys)); [grow_visited IH | grow_insert IH].
Qed.

Lemma retargetLastTo_tl (visited : list Segment) (e : Q) : tl (retargetLastTo visited e) = tl visited.
Proof. destruct visited; reflexivity. Qed.

Lemma prefix_tl_retarget (out visited : list Segment) (e : Q) :
  (exists tail, out = rev (retargetLastTo visited e) ++ tail) -> exists tail, out = rev (tl visited) ++ tail.
Proof. intros H. rewrite <- (retargetLastTo_tl visited e). apply prefix_tl. exact H. Qed.

Ltac ramp_leaf IH :=
  first [ apply (IH _ true)
        | eapply (prefix_extend _ _ [_]); apply (IH _ false)
        | eapply (prefix_extend _ _ [_; _]); apply (IH _ false)
        | match goal with
          | |- context [insertVerticalMoveToTerrainFloor ?v ?s ?f] =>
              let added := fresh "added" in
              let Hadd := fresh "Hadd" in
              destruct (insertVerticalMoveToTerrainFloor_extends v s f) as [added [Hadd _]];
              rewrite Hadd; apply (prefix_extend _ _ added); apply (IH _ false)
          end ].

(** The ramp scan never rewrites a segment it has already visited, apart
    from the upper half of a split, whose [to] the next segment moves. *)
Lemma rampLoop_prefix (sys : BehaviorSystem) (freefall : bool) (fuel : nat) :
  forall entered shared visited todo,
  exists tail, rampLoop sceneBackgroundElevation systemPlateauSegmentIntersection systemPlateauElevation
                 sys freefall fuel entered shared visited todo
               = rev (if shared then tl visited else visited) ++ tail.
Proof.
  induction fuel as [|fuel IH]; intros entered shared visited todo.
  - destruct shared; [apply prefix_tl|]; exists todo; reflexivity.
  - destruct todo as [|segment rest].
    + destruct shared; [apply prefix_tl|]; exists []; simpl; rewrite app_nil_r; reflexivity.
    + cbn [rampLoop].
      destruct shared; cbn beta iota zeta; destruct (type segment);
        repeat match goal with
               | |- context [if ?c then _ else _] => destruct c
               | |- context [match ?m with Some _ => _ | None => _ end] => destruct m
               end;
        first [ eapply prefix_tl_retarget; ramp_leaf IH
              | apply prefix_tl; ramp_leaf IH
              | ramp_leaf IH ].
Qed.

(** Once a path has entered an active plateau region, every MOVE inside it
    is lifted to at least the plateau elevation, point by point
    ([Math.max(elevation, ...)]), right after the ENTER segment and the
    vertical move up to the plateau (absent when the entry is already at
    the plateau elevation); the rest of the path follows. *)
Theorem modifySegmentsForPlateau_inside (behavior : Behavior) (freefall : bool)
    (enter : Segment) (ms rest : list Segment) :
  skipsBehavior behavior PLATEAU = false ->
  type enter = ENTER ->
  Forall (fun s => type s = MOVE) ms ->
  exists tail,
    modifySegmentsForPlateau sceneBackgroundElevation systemPlateauSegmentIntersection
      (enter :: ms ++ rest) behavior freefall
    = enter :: (if Qeq_bool behavior.(system).(sys_elevation) enter.(to).(elevation) then []
                else [constructVerticalMoveSegment enter.(to) behavior.(system).(sys_elevation)])
      ++ map (plateauMoveElevations behavior.(system).(sys_elevation)) ms ++ tail.
Proof.
  intros Hskip Henter Hms. unfold modifySegmentsForPlateau, loopFuel. rewrite Hskip.
  cbn [plateauLoop]. rewrite Henter.
  destruct (Qeq_bool _ _);
    (rewrite (plateauLoop_moves _ _ _ Hms) by (simpl; rewrite length_app; lia));
    match goal with
    | |- context [plateauLoop _ _ ?sys ?ff ?fuel ?en ?v ?t] =>
        destruct (plateauLoop_prefix sceneBackgroundElevation systemPlateauSegmentIntersection
                    sys ff fuel en v t) as [tail Ht]
    end;
    rewrite Ht; exists tail; rewrite rev_app_distr, rev_involutive; reflexivity.
Qed.

(** Once a path has entered an active stairs region, every MOVE inside it
    is pushed toward the target chosen at the entry: with [Math.max] up to
    the top elevation when the entry's elevation is at most [stairsMidE]
    (the offset [Math.round((elevation - floor) * 0.5)], compared with the
    absolute entry elevation), with [Math.min] down to the floor otherwise;
    the ENTER segment itself is left as it is. *)
Theorem modifySegmentsForStairs_inside (behavior : Behavior) (enter : Segment) (ms rest : list Segment) :
  skipsBehavior behavior STAIRS = false ->
  type enter = ENTER ->
  Forall (fun s => type s = MOVE) ms ->
  let up := Qle_bool enter.(from).(elevation) (stairsMidE behavior.(system)) in
  let targetElevation := if up then behavior.(system).(sys_elevation) else behavior.(system).(sys_floor) in
  exists tail,
    modifySegmentsForStairs sceneBackgroundElevation (enter :: ms ++ rest) behavior
    = enter :: map (stairsMoveElevations up targetElevation) ms ++ tail.
Proof.
  intros Hskip Henter Hms up targetElevation. unfold modifySegmentsForStairs. rewrite Hskip.
  cbn [stairsLoop]. rewrite Henter. cbv zeta.
  rewrite (stairsLoop_moves _ _ _ _ _ Hms).
  match goal with
  | |- context [stairsLoop _ ?sys ?midE ?en ?u ?t ?v ?r] =>
      destruct (stairsLoop_prefix sys midE r en u t v) as [tail Ht]
  end.
  rewrite Ht. exists tail. rewrite rev_app_distr, rev_involutive. reflexivity.
Qed.

(** Once a path has entered an active ramp region, every MOVE inside it is
    put on the ramp: both ends take the ramp's elevation at their own x, y.
    Before them come the ENTER segment and the vertical move onto the ramp
    (absent when the entry is already at the ramp's elevation there). *)
Theorem modifySegmentsForRamp_inside (behavior : Behavior) (freefall : bool)
    (enter : Segment) (ms rest : list Segment) :
  skipsBehavior behavior RAMP = false ->
  type enter = ENTER ->
  Forall (fun s => type s = MOVE) ms ->
  let plateauElevation := systemPlateauElevation behavior.(system) in
  exists tail,
    modifySegmentsForRamp sceneBackgroundElevation systemPlateauSegmentIntersection systemPlateauElevation
      (enter :: ms ++ rest) behavior freefall
    = enter :: (if Qeq_bool (plateauElevation enter.(to)) enter.(to).(elevation) then []
                else [constructVerticalMoveSegment enter.(to) (plateauElevation enter.(to))])
      ++ map (rampMoveElevations plateauElevation) ms ++ tail.
Proof.
  intros Hskip Henter Hms plateauElevation. unfold modifySegmentsForRamp, loopFuel. rewrite Hskip.
  cbn [rampLoop]. rewrite Henter.
  destruct (Qeq_bool _ _);
    (rewrite (rampLoop_moves _ _ _ Hms) by (simpl; rewrite length_app; lia));
    match goal with
    | |- context [rampLoop _ _ _ ?sys ?ff ?fuel ?en ?sh ?v ?t] =>
        destruct (rampLoop_prefix sys ff fuel en sh v t) as [tail Ht]
    end;
    rewrite Ht; exists tail; cbn iota; rewrite rev_app_distr, rev_involutive; reflexivity.
Qed.

Lemma stairsLoop_shape (sys : BehaviorSystem) (midE : Q) (todo : list Segment) :
  reset sys = false ->
  forall entered up targetElevation visited,
  map segmentShape (stairsLoop sceneBackgroundElevation sys midE entered up targetElevation visited todo)
  = map segmentShape (rev visited ++ todo).
Proof.
  intros Hreset. induction todo as [|segment rest IH]; intros entered up targetElevation visited.
  - rewrite app_nil_r. reflexivity.
  - cbn [stairsLoop]. rewrite Hreset. cbn [negb].
    destruct (type segment) eqn:Ht;
      repeat match goal with |- context [if ?c then _ else _] => destruct c end;
      rewrite IH; cbn [rev]; rewrite <- app_assoc; cbn [app]; rewrite !map_app; reflexivity.
Qed.

(** A stairs behavior without reset never adds, removes or reorders a
    segment and never moves one in x, y or changes its type: it only
    rewrites elevations. *)
Theorem modifySegmentsForStairs_no_reset_shape (segments : list Segment) (behavior : Behavior) :
  behavior.(system).(reset) = false ->
  map segmentShape (modifySegmentsForStairs sceneBackgroundElevation segments behavior)
  = map segmentShape segments.
Proof.
  intros Hreset. unfold modifySegmentsForStairs. destruct (skipsBehavior _ _); [reflexivity|].
  rewrite (stairsLoop_shape _ _ _ Hreset). reflexivity.
Qed.

(** C3 (failing input): with [reset] and without freefall, a path that
    entered the plateau region and reaches the EXIT at the plateau
    elevation is not returned to the terrain floor.  The code resets only
    when [elevation !== segment.from.elevation], the opposite of its
    comment "If entered and on the plateau elevation, reset": the EXIT
    segment is kept as it is, after the ENTER, the vertical move up and the
    raised MOVEs, and no vertical move down is added. *)
Theorem plateau_exit_on_plateau_not_reset (behavior : Behavior) (enter exit : Segment)
    (ms rest : list Segment) :
  skipsBehavior behavior PLATEAU = false ->
  behavior.(system).(reset) = true ->
  type enter = ENTER ->
  Forall (fun s => type s = MOVE) ms ->
  type exit = EXIT ->
  exit.(from).(elevation) == behavior.(system).(sys_elevation) ->
  exists tail,
    modifySegmentsForPlateau sceneBackgroundElevation systemPlateauSegmentIntersection
      (enter :: ms ++ exit :: rest) behavior false
    = enter :: (if Qeq_bool behavior.(system).(sys_elevation) enter.(to).(elevation) then []
                else [constructVerticalMoveSegment enter.(to) behavior.(system).(sys_elevation)])
      ++ map (plateauMoveElevations behavior.(system).(sys_elevation)) ms ++ exit :: tail.
Proof.
  intros Hskip Hreset Henter Hms Hexit Hon. unfold modifySegmentsForPlateau, loopFuel. rewrite Hskip.
  assert (Heq : Qeq_bool (sys_elevation (system behavior)) (elevation (from exit)) = true)
    by (apply Qeq_bool_iff; symmetry; exact Hon).
  cbn [plateauLoop]. rewrite Henter.
  destruct (Qeq_bool _ (elevation (to enter)));
    (rewrite (plateauLoop_moves _ _ _ Hms) by (simpl; rewrite length_app; simpl; lia));
    (match goal with
     | |- context [plateauLoop _ _ _ _ ?fuel _ _ _] =>
         let k := fresh "k" in
         let Hf := fresh "Hf" in
         destruct fuel as [|k] eqn:Hf; [exfalso; cbn [Datatypes.length] in Hf; rewrite length_app in Hf; cbn [Datatypes.length] in Hf; lia|]
     end);
    cbn [plateauLoop]; rewrite Hexit, Hreset, Heq; cbn [negb andb orb];
    match goal with
    | |- context [plateauLoop _ _ ?sys ?ff ?fuel ?en ?v ?t] =>
        destruct (plateauLoop_prefix sceneBackgroundElevation systemPlateauSegmentIntersection
                    sys ff fuel en v t) as [tail Ht]
    end;
    rewrite Ht; exists tail; simpl rev; rewrite rev_app_distr, rev_involutive;
    simpl; rewrite <- !app_assoc; reflexivity.
Qed.

End InsideFacts.

Lemma modifySegmentsForPlateau_inside_witness :
  exists tail,
    modifySegmentsForPlateau noSceneFlag noIntersection
      (seg ENTER (wp 0 0 0) (wp 1 0 0) :: [seg MOVE (wp 1 0 0) (wp 2 0 0)] ++ [seg EXIT (wp 2 0 0) (wp 3 0 0)])
      plateau10 false
    = seg ENTER (wp 0 0 0) (wp 1 0 0) :: [constructVerticalMoveSegment (wp 1 0 0) 10]
      ++ map (plateauMoveElevations 10) [seg MOVE (wp 1 0 0) (wp 2 0 0)] ++ tail.
Proof.
  apply (modifySegmentsForPlateau_inside noSceneFlag noIntersection plateau10 false
           (seg ENTER (wp 0 0 0) (wp 1 0 0)) [seg MOVE (wp 1 0 0) (wp 2 0 0)] [seg EXIT (wp 2 0 0) (wp 3 0 0)]).
  - reflexivity.
  - reflexivity.
  - repeat constructor.
Defined.

Lemma modifySegmentsForStairs_inside_witness :
  exists tail,
    modifySegmentsForStairs noSceneFlag
      (seg ENTER (wp 0 0 3) (wp 1 0 3) :: [seg MOVE (wp 1 0 3) (wp 2 0 3)] ++ [seg EXIT (wp 2 0 3) (wp 3 0 3)])
      stairs20to30
    = seg ENTER (wp 0 0 3) (wp 1 0 3)
      :: map (stairsMoveElevations true 30) [seg MOVE (wp 1 0 3) (wp 2 0 3)] ++ tail.
Proof.
  apply (modifySegmentsForStairs_inside noSceneFlag stairs20to30
           (seg ENTER (wp 0 0 3) (wp 1 0 3)) [seg MOVE (wp 1 0 3) (wp 2 0 3)] [seg EXIT (wp 2 0 3) (wp 3 0 3)]).
  - reflexivity.
  - reflexivity.
  - repeat constructor.
Defined.

Lemma modifySegmentsForRamp_inside_witness :
  exists tail,
    modifySegmentsForRamp noSceneFlag noIntersection (fun _ _ => 5)
      (seg ENTER (wp 0 0 0) (wp 1 0 0) :: [seg MOVE (wp 1 0 0) (wp 2 0 0)] ++ [seg EXIT (wp 2 0 0) (wp 3 0 0)])
      (setElevationBehavior RAMP 10 0 true false) false
    = seg ENTER (wp 0 0 0) (wp 1 0 0) :: [constructVerticalMoveSegment (wp 1 0 0) 5]
      ++ map (rampMoveElevations (fun _ => 5)) [seg MOVE (wp 1 0 0) (wp 2 0 0)] ++ tail.
Proof.
  apply (modifySegmentsForRamp_inside noSceneFlag noIntersection (fun _ _ => 5)
           (setElevationBehavior RAMP 10 0 true false) false
           (seg ENTER (wp 0 0 0) (wp 1 0 0)) [seg MOVE (wp 1 0 0) (wp 2 0 0)] [seg EXIT (wp 2 0 0) (wp 3 0 0)]).
  - reflexivity.
  - reflexivity.
  - repeat constructor.
Defined.

Lemma modifySegmentsForStairs_no_reset_shape_witness :
  map segmentShape (modifySegmentsForStairs noSceneFlag walkAcross stairs20to30) = map segmentShape walkAcross.
Proof. apply (modifySegmentsForStairs_no_reset_shape noSceneFlag walkAcross stairs20to30). reflexivity. Defined.

(** ** The path of a movement *)

(** [pathFromSegments] distributes over a split of the segment list: the
    path of the whole movement is the path of its first part (with the
    start waypoint) followed by the path of the rest (with the end
    waypoint). *)
Theorem pathFromSegments_app (s1 s2 : list Segment) (start end_ : option Waypoint) :
  pathFromSegments (s1 ++ s2) start end_ = pathFromSegments s1 start None ++ pathFromSegments s2 None end_.
Proof.
  unfold pathFromSegments. rewrite flat_map_app.
  destruct start, end_; simpl; rewrite ?app_nil_r, <- ?app_assoc; reflexivity.
Qed.

(** ** Axis points *)

Section AxisMoreFacts.

Variable rotatePoint : Z -> Point -> Point -> Point.
Variable isPositive : Polygon -> bool.

Lemma minMaxPolygonPointsAlongAxis_none_iff (poly : Polygon) (direction : Z) (centroid : Point) :
  minMaxPolygonPointsAlongAxis rotatePoint poly direction centroid = None
  <-> Z.rem direction 90 = 0%Z /\ ~ In direction [0; 90; 180; 270]%Z.
Proof.
  unfold minMaxPolygonPointsAlongAxis.
  destruct (Z.eqb (Z.rem direction 90) 0) eqn:Hrem; simpl negb; cbv zeta.
  - apply Z.eqb_eq in Hrem.
    destruct (Z.eqb_spec direction 0); [subst; split; [discriminate | intros [_ H]; exfalso; apply H; simpl; tauto]|].
    destruct (Z.eqb_spec direction 90); [subst; split; [discriminate | intros [_ H]; exfalso; apply H; simpl; tauto]|].
    destruct (Z.eqb_spec direction 180); [subst; split; [discriminate | intros [_ H]; exfalso; apply H; simpl; tauto]|].
    destruct (Z.eqb_spec direction 270); [subst; split; [discriminate | intros [_ H]; exfalso; apply H; simpl; tauto]|].
    split; [intros _; split; [exact Hrem | simpl; intuition congruence] | reflexivity].
  - apply Z.eqb_neq in Hrem.
    unfold rotatePolygon. destruct (Z.eqb _ 0); simpl;
      (split; [discriminate | intros [H _]; contradiction]).
Qed.

Lemma regionAxisLoop_result (direction : Z) (center : Point) (polys : list Polygon) :
  forall minMax minDist2 maxDist2,
  (Z.rem direction 90 = 0%Z /\ ~ In direction [0; 90; 180; 270]%Z ->
   regionAxisLoop rotatePoint direction center minMax minDist2 maxDist2 polys
   = match polys with [] => RMPoints minMax | _ => RMTypeError end)
  /\ (~ (Z.rem direction 90 = 0%Z /\ ~ In direction [0; 90; 180; 270]%Z) ->
      exists mm, regionAxisLoop rotatePoint direction center minMax minDist2 maxDist2 polys = RMPoints mm).
Proof.
  induction polys as [|poly polys IH]; intros minMax minDist2 maxDist2.
  - split; [reflexivity | eexists; reflexivity].
  - split.
    + intros Hbad. cbn [regionAxisLoop].
      apply minMaxPolygonPointsAlongAxis_none_iff with (poly := poly) (centroid := center) in Hbad.
      rewrite Hbad. reflexivity.
    + intros Hgood. cbn [regionAxisLoop].
      destruct (minMaxPolygonPointsAlongAxis rotatePoint poly direction center) as [res|] eqn:Hres.
      * destruct (if Qlt_bool minDist2 _ then _ else _) as [newMin newMinDist2].
        destruct (if Qlt_bool maxDist2 _ then _ else _) as [newMax newMaxDist2].
        apply IH. exact Hgood.
      * exfalso. apply Hgood. apply (minMaxPolygonPointsAlongAxis_none_iff poly direction center). exact Hres.
Qed.

(** [minMaxRegionPointsAlongAxis] returns [undefined] exactly when the
    region has no positive (non-hole) polygon, and throws a [TypeError]
    (reading [.min] of the [undefined] of the polygon function) exactly
    when it has one and the direction is a multiple of 90 other than 0,
    90, 180 and 270 (such as 360 or -90); otherwise it returns a pair of
    points. *)
Theorem minMaxRegionPointsAlongAxis_outcomes (region : Region) (direction : Z) :
  (minMaxRegionPointsAlongAxis rotatePoint isPositive region direction = RMUndefined
   <-> filter isPositive region.(polygons) = [])
  /\ (minMaxRegionPointsAlongAxis rotatePoint isPositive region direction = RMTypeError
      <-> filter isPositive region.(polygons) <> []
          /\ Z.rem direction 90 = 0%Z /\ ~ In direction [0; 90; 180; 270]%Z)
  /\ (filter isPositive region.(polygons) <> [] ->
      ~ (Z.rem direction 90 = 0%Z /\ ~ In direction [0; 90; 180; 270]%Z) ->
      exists mm, minMaxRegionPointsAlongAxis rotatePoint isPositive region direction = RMPoints mm).
Proof.
  unfold minMaxRegionPointsAlongAxis. cbv zeta.
  destruct (filter isPositive (polygons region)) as [|poly0 polys'].
  - split; [tauto|]. split; [split; [discriminate | intros [H _]; contradiction H; reflexivity]|].
    intros H; contradiction H; reflexivity.
  - destruct (minMaxPolygonPointsAlongAxis rotatePoint poly0 direction (boundsCenter region)) as [mm|] eqn:H0.
    + assert (Hgood : ~ (Z.rem direction 90 = 0%Z /\ ~ In direction [0; 90; 180; 270]%Z)).
      { intros Hbad. apply (minMaxPolygonPointsAlongAxis_none_iff poly0 direction (boundsCenter region)) in Hbad.
        congruence. }
      destruct (proj2 (regionAxisLoop_result direction (boundsCenter region) polys' mm
                         (distanceSquaredBetween (minPoint mm) (boundsCenter region))
                         (distanceSquaredBetween (maxPoint mm) (boundsCenter region))) Hgood) as [mm' Hmm'].
      rewrite Hmm'.
      split; [split; [discriminate | intros H; discriminate H]|].
      split; [split; [discriminate | intros [_ Hbad]; contradiction]|].
      intros _ _. exists mm'. reflexivity.
    + apply minMaxPolygonPointsAlongAxis_none_iff in H0.
      split; [split; [discriminate | intros H; discriminate H]|].
      split; [split; [intros _; split; [discriminate | exact H0] | reflexivity]|].
      intros _ Hgood. contradiction.
Qed.

End AxisMoreFacts.

Lemma plateau_exit_on_plateau_not_reset_witness :
  exists tail,
    modifySegmentsForPlateau noSceneFlag noIntersection
      (seg ENTER (wp 0 0 0) (wp 1 0 0) :: [seg MOVE (wp 1 0 0) (wp 2 0 10)]
         ++ seg EXIT (wp 2 0 10) (wp 3 0 10) :: [])
      plateau10 false
    = seg ENTER (wp 0 0 0) (wp 1 0 0) :: [constructVerticalMoveSegment (wp 1 0 0) 10]
      ++ map (plateauMoveElevations 10) [seg MOVE (wp 1 0 0) (wp 2 0 10)]
      ++ seg EXIT (wp 2 0 10) (wp 3 0 10) :: tail.
Proof.
  apply (plateau_exit_on_plateau_not_reset noSceneFlag noIntersection plateau10
           (seg ENTER (wp 0 0 0) (wp 1 0 0)) (seg EXIT (wp 2 0 10) (wp 3 0 10))
           [seg MOVE (wp 1 0 0) (wp 2 0 10)] []).
  - reflexivity.
  - reflexivity.
  - reflexivity.
  - repeat constructor.
  - reflexivity.
  - vm_compute. reflexivity.
Defined.

(** The whole adjusted path of that input: the EXIT stays at elevation 10
    while the scene floor is 0. *)
Example plateau_exit_on_plateau_path :
  modifySegmentsForPlateau noSceneFlag noIntersection
    [ seg ENTER (wp 0 0 0) (wp 1 0 0); seg MOVE (wp 1 0 0) (wp 2 0 10); seg EXIT (wp 2 0 10) (wp 3 0 10) ]
    plateau10 false
  = [ seg ENTER (wp 0 0 0) (wp 1 0 0);
      seg MOVE (wp 1 0 0) (wp 1 0 10);
      seg MOVE (wp 1 0 10) (wp 2 0 10);
      seg EXIT (wp 2 0 10) (wp 3 0 10) ].
Proof. vm_compute. reflexivity. Qed.
